(** * SeleniumLibrary window manager: locators/windowmanager.py

    A shallow embedding of [WindowManager] and proofs about window
    selection.  Python [str] values are modelled as [string] whose
    characters are code points below 256; the browser driver is an explicit
    state threaded through a state-and-exception monad. *)

From Stdlib Require Import String Ascii List Bool PeanoNat.
Import ListNotations.
Local Open Scope string_scope.

(** ** Python string methods *)

Module PyStr.

(** [str.lower] on one character: A-Z, and the Latin-1 capitals
    (192-222 except the multiplication sign 215), move up by 32. *)
Definition lower_char (c : ascii) : ascii :=
  let n := nat_of_ascii c in
  if (((65 <=? n) && (n <=? 90))
      || ((192 <=? n) && (n <=? 222) && negb (n =? 215)))%nat
  then ascii_of_nat (n + 32) else c.

(** [str.lower] *)
Fixpoint lower (s : string) : string :=
  match s with
  | EmptyString => EmptyString
  | String c t => String (lower_char c) (lower t)
  end.

(** The characters [str.strip()] removes: those for which
    [str.isspace] holds. *)
Definition is_space (c : ascii) : bool :=
  let n := nat_of_ascii c in
  (((9 <=? n) && (n <=? 13)) || ((28 <=? n) && (n <=? 32))
   || (n =? 133) || (n =? 160))%nat.

(** [str.lstrip()] *)
Fixpoint lstrip (s : string) : string :=
  match s with
  | EmptyString => EmptyString
  | String c t => if is_space c then lstrip t else s
  end.

(** [str.rstrip()] *)
Fixpoint rstrip (s : string) : string :=
  match s with
  | EmptyString => EmptyString
  | String c t =>
      match rstrip t with
      | EmptyString => if is_space c then EmptyString else String c EmptyString
      | t' => String c t'
      end
  end.

(** [str.strip()] *)
Definition strip (s : string) : string := rstrip (lstrip s).

(** [str.partition(sep)] for a one-character separator: the part before
    the first occurrence, the separator found (empty when absent), and
    the part after it. *)
Fixpoint partition (sep : ascii) (s : string) : string * string * string :=
  match s with
  | EmptyString => (EmptyString, EmptyString, EmptyString)
  | String c t =>
      if Ascii.eqb c sep then (EmptyString, String sep EmptyString, t)
      else
        match partition sep t with
        | (before, found, after) =>
            match found with
            | EmptyString => (s, EmptyString, EmptyString)
            | _ => (String c before, found, after)
            end
        end
  end.

(** [sub in s] for a one-character [sub] *)
Fixpoint contains (c : ascii) (s : string) : bool :=
  match s with
  | EmptyString => false
  | String d t => Ascii.eqb d c || contains c t
  end.

(** [a in s] for strings: [s] has [a] as a contiguous part. *)
Definition substring_of (a s : string) : Prop :=
  exists pre post, s = pre ++ a ++ post.

(** Python truth value of a string *)
Definition truthy (s : string) : bool :=
  match s with EmptyString => false | _ => true end.

End PyStr.
Import PyStr.

(** ** Locator parsing *)

(** [_parse_locator]: [None] is Python's [None] for both the locator and
    the prefix. *)
Definition _parse_locator (locator : option string)
  : option string * option string :=
  let '(prefix, criteria) :=
    match locator with
    | Some l =>
        if (0 <? String.length l)%nat then
          match partition "=" l with
          | (p0, p1, p2) =>
              if (0 <? String.length p1)%nat
              then (Some (lower (strip p0)), Some (strip p2))
              else (None, locator)
          end
        else (None, locator)
    | None => (None, locator)
    end in
  let prefix_none_or_name :=
    match prefix with
    | None => true
    | Some p => String.eqb p "name"
    end in
  if prefix_none_or_name then
    match criteria with
    | None => (prefix, Some "")
    | Some c =>
        if String.eqb (lower c) "main" then (prefix, Some "")
        else (prefix, criteria)
    end
  else (prefix, criteria).

(** ** Exceptions and the driver *)

(** The exception classes the module raises or catches.
    [NoSuchWindowException] is a subclass of [WebDriverException]. *)
Inductive exn : Type :=
| ValueError (msg : string)
| AssertionError (msg : string)
| IndexError
| TypeError
| NoSuchWindowException
| WebDriverException.

Definition is_WebDriverException (e : exn) : bool :=
  match e with
  | NoSuchWindowException | WebDriverException => true
  | _ => false
  end.

Inductive result (A : Type) : Type :=
| Ok (a : A)
| Raise (e : exn).
Arguments Ok {A} a.
Arguments Raise {A} e.

(** What a window shows to the driver: [window.id] (often undefined in the
    page, hence optional), [window.name], the document title and URL. *)
Record Window : Type := mkWindow {
  win_id : option string;
  win_name : string;
  win_title : string;
  win_url : string
}.

(** The requests the module sends to the driver. *)
Inductive call : Type :=
| CallHandles
| CallCurrent
| CallSwitch (handle : string)
| CallScript
| CallTitle
| CallUrl.

(** The browser session behind [self.browser]: the handle list the driver
    reports, the windows that are open (a listed handle whose window has
    closed is absent here), the focused window if any, whether the driver
    runs Javascript, and the requests received so far, newest first. *)
Record Browser : Type := mkBrowser {
  br_handles : list string;
  br_windows : list (string * Window);
  br_focus : option string;
  br_javascript : bool;
  br_calls : list call
}.

Fixpoint find_window (h : string) (ws : list (string * Window))
  : option Window :=
  match ws with
  | [] => None
  | (k, w) :: t => if String.eqb k h then Some w else find_window h t
  end.

Definition log (c : call) (b : Browser) : Browser :=
  mkBrowser (br_handles b) (br_windows b) (br_focus b) (br_javascript b)
            (c :: br_calls b).

Definition set_focus (h : string) (b : Browser) : Browser :=
  mkBrowser (br_handles b) (br_windows b) (Some h) (br_javascript b)
            (br_calls b).

(** The focused window, when there is one and it is still open. *)
Definition focused (b : Browser) : option (string * Window) :=
  match br_focus b with
  | Some h =>
      match find_window h (br_windows b) with
      | Some w => Some (h, w)
      | None => None
      end
  | None => None
  end.

(** ** The monad of driver code: state that survives a raise *)

Definition M (A : Type) : Type := Browser -> result A * Browser.

Definition ret {A} (a : A) : M A := fun b => (Ok a, b).

Definition raise {A} (e : exn) : M A := fun b => (Raise e, b).

Definition bind {A B} (m : M A) (k : A -> M B) : M B :=
  fun b =>
    match m b with
    | (Ok a, b') => k a b'
    | (Raise e, b') => (Raise e, b')
    end.

Declare Scope py_scope.
Delimit Scope py_scope with py.
Notation "x <- m ;; k" := (bind m (fun x => k))
  (at level 100, m at next level, right associativity) : py_scope.
Notation "m ;; k" := (bind m (fun _ => k))
  (at level 100, right associativity) : py_scope.
Local Open Scope py_scope.

(** [try: m except ...]: [handler e] is the body of the clause that
    catches [e], if one does. *)
Definition try_except {A} (m : M A) (handler : exn -> option (M A)) : M A :=
  fun b =>
    match m b with
    | (Ok a, b') => (Ok a, b')
    | (Raise e, b') =>
        match handler e with
        | Some h => h b'
        | None => (Raise e, b')
        end
    end.

(** [try: m finally: f]: [f] runs on every exit; what it raises replaces
    the outcome of [m]. *)
Definition try_finally {A} (m : M A) (f : M unit) : M A :=
  fun b =>
    match m b with
    | (r, b') =>
        match f b' with
        | (Ok _, b'') => (r, b'')
        | (Raise e, b'') => (Raise e, b'')
        end
    end.

(** *** Driver requests *)

(** [browser.window_handles] *)
Definition window_handles : M (list string) :=
  fun b => (Ok (br_handles b), log CallHandles b).

(** [browser.current_window_handle] *)
Definition current_window_handle : M string :=
  fun b =>
    match focused b with
    | Some (h, _) => (Ok h, log CallCurrent b)
    | None => (Raise NoSuchWindowException, log CallCurrent b)
    end.

(** [browser.switch_to.window(handle)] *)
Definition switch_to_window (handle : string) : M unit :=
  fun b =>
    match find_window handle (br_windows b) with
    | Some _ => (Ok tt, set_focus handle (log (CallSwitch handle) b))
    | None => (Raise NoSuchWindowException, log (CallSwitch handle) b)
    end.

(** [browser.execute_script("return [ window.id, window.name ];")] *)
Definition execute_script_id_name : M (option string * option string) :=
  fun b =>
    if br_javascript b then
      match focused b with
      | Some (_, w) => (Ok (win_id w, Some (win_name w)), log CallScript b)
      | None => (Raise NoSuchWindowException, log CallScript b)
      end
    else (Raise WebDriverException, log CallScript b).

(** [browser.title] *)
Definition title : M string :=
  fun b =>
    match focused b with
    | Some (_, w) => (Ok (win_title w), log CallTitle b)
    | None => (Raise NoSuchWindowException, log CallTitle b)
    end.

(** [browser.current_url] *)
Definition current_url : M string :=
  fun b =>
    match focused b with
    | Some (_, w) => (Ok (win_url w), log CallUrl b)
    | None => (Raise NoSuchWindowException, log CallUrl b)
    end.

(** ** WindowManager *)

(** [WindowInfo = namedtuple('WindowInfo', 'handle, id, name, title, url')] *)
Record WindowInfo : Type := mkWindowInfo {
  wi_handle : string;
  wi_id : string;
  wi_name : string;
  wi_title : string;
  wi_url : string
}.

(** [x or 'undefined'] *)
Definition or_undefined (s : string) : string :=
  if truthy s then s else "undefined".

(** [_get_current_window_info] *)
Definition _get_current_window_info : M WindowInfo :=
  id_name <- try_except execute_script_id_name
               (fun e => if is_WebDriverException e
                         then Some (ret (None, None)) else None) ;;
  handle <- current_window_handle ;;
  t <- title ;;
  u <- current_url ;;
  ret (mkWindowInfo
         handle
         (match fst id_name with Some i => i | None => "undefined" end)
         (match snd id_name with Some n => or_undefined n
                               | None => "undefined" end)
         (or_undefined t)
         (or_undefined u)).

(** The [try: ... current_window_handle / except NoSuchWindowException:
    None] that opens every scan. *)
Definition read_starting_handle : M (option string) :=
  try_except (h <- current_window_handle ;; ret (Some h))
    (fun e => match e with
              | NoSuchWindowException => Some (ret None)
              | _ => None
              end).

(** [if starting_handle: browser.switch_to.window(starting_handle)] *)
Definition restore (starting_handle : option string) : M unit :=
  match starting_handle with
  | Some h => if truthy h then switch_to_window h else ret tt
  | None => ret tt
  end.

(** The loop of [get_window_infos]: the list it has appended to when it
    ends normally. *)
Fixpoint collect_infos (handles : list string) : M (list WindowInfo) :=
  match handles with
  | [] => ret []
  | handle :: rest =>
      switch_to_window handle ;;
      info <- _get_current_window_info ;;
      infos <- collect_infos rest ;;
      ret (info :: infos)
  end.

(** [get_window_infos] *)
Definition get_window_infos : M (list WindowInfo) :=
  starting_handle <- read_starting_handle ;;
  try_finally
    (handles <- window_handles ;; collect_infos handles)
    (restore starting_handle).

(** The loop of [_select_matching]: [true] when it returned from inside
    the loop, [false] when it ran to the end. *)
Fixpoint scan_matching (matcher : WindowInfo -> bool) (handles : list string)
  : M bool :=
  match handles with
  | [] => ret false
  | handle :: rest =>
      switch_to_window handle ;;
      info <- _get_current_window_info ;;
      if matcher info then ret true else scan_matching matcher rest
  end.

(** [_select_matching] *)
Definition _select_matching (matcher : WindowInfo -> bool) (error : string)
  : M unit :=
  starting_handle <- read_starting_handle ;;
  handles <- window_handles ;;
  found <- scan_matching matcher handles ;;
  if found then ret tt
  else (restore starting_handle ;; raise (ValueError error)).

(** A strategy receives the criteria, which is [None] only for a [None]
    locator. *)
Definition strategy : Type := option string -> M unit.

(** [_select_by_title]; concatenating [None] to the message raises
    [TypeError] before the scan starts. *)
Definition _select_by_title : strategy := fun criteria =>
  match criteria with
  | None => raise TypeError
  | Some c =>
      _select_matching
        (fun window_info =>
           String.eqb (lower (strip (wi_title window_info))) (lower c))
        ("Unable to locate window with title '" ++ c ++ "'")
  end.

(** [_select_by_name] *)
Definition _select_by_name : strategy := fun criteria =>
  match criteria with
  | None => raise TypeError
  | Some c =>
      _select_matching
        (fun window_info =>
           String.eqb (lower (strip (wi_name window_info))) (lower c))
        ("Unable to locate window with name '" ++ c ++ "'")
  end.

(** [_select_by_url] *)
Definition _select_by_url : strategy := fun criteria =>
  match criteria with
  | None => raise TypeError
  | Some c =>
      _select_matching
        (fun window_info =>
           String.eqb (lower (strip (wi_url window_info))) (lower c))
        ("Unable to locate window with URL '" ++ c ++ "'")
  end.

(** The loop of [_select_by_default]: the handle itself is compared first,
    then the name and the title ([info[2:4]]). *)
Fixpoint scan_default (criteria : string) (handles : list string) : M bool :=
  match handles with
  | [] => ret false
  | handle :: rest =>
      switch_to_window handle ;;
      if String.eqb criteria handle then ret true
      else
        info <- _get_current_window_info ;;
        if existsb (fun item => String.eqb (lower (strip item)) (lower criteria))
                   [wi_name info; wi_title info]
        then ret true
        else scan_default criteria rest
  end.

(** [handles = browser.window_handles; browser.switch_to.window(handles[0])] *)
Definition select_first_handle : M unit :=
  handles <- window_handles ;;
  match handles with
  | [] => raise IndexError
  | first :: _ => switch_to_window first
  end.

(** [_select_by_default]; the test is
    [criteria is None or len(criteria) == 0 or criteria.lower() == "null"]. *)
Definition _select_by_default : strategy := fun criteria =>
  match criteria with
  | None => select_first_handle
  | Some c =>
      if (String.length c =? 0)%nat || String.eqb (lower c) "null"
      then select_first_handle
      else
        starting_handle <- read_starting_handle ;;
        handles <- window_handles ;;
        found <- scan_default c handles ;;
        if found then ret tt
        else
          (restore starting_handle ;;
           raise (ValueError
                    ("Unable to locate window with handle or name or title or URL '"
                       ++ c ++ "'")))
  end.

(** [handles[-1]] *)
Definition last_handle (handles : list string) : M string :=
  match rev handles with
  | [] => raise IndexError
  | l :: _ => ret l
  end.

Definition no_new_window_message : string :=
  "No new window at last index. Please use '@{ex}= | List Windows' + new window trigger + 'Select Window | ${ex}' to find it.".

(** [_select_by_last_index] *)
Definition _select_by_last_index : M unit :=
  handles <- window_handles ;;
  try_except
    (l <- last_handle handles ;;
     cur <- current_window_handle ;;
     if String.eqb l cur then raise (AssertionError no_new_window_message)
     else ret tt)
    (fun e => match e with
              | IndexError => Some (raise (AssertionError "No window found"))
              | NoSuchWindowException =>
                  Some (raise (AssertionError
                    "Currently no focus window. where are you making a popup window?"))
              | _ => None
              end) ;;
  l <- last_handle handles ;;
  switch_to_window l.

(** [handle not in excludes] *)
Definition excluded (handle : string) (excludes : list string) : bool :=
  existsb (String.eqb handle) excludes.

(** The loop of [_select_by_excludes] over an already read handle list. *)
Fixpoint scan_excludes (excludes handles : list string) : M bool :=
  match handles with
  | [] => ret false
  | handle :: rest =>
      if negb (excluded handle excludes)
      then (switch_to_window handle ;; ret true)
      else scan_excludes excludes rest
  end.

(** [_select_by_excludes] *)
Definition _select_by_excludes (excludes : list string) : M unit :=
  handles <- window_handles ;;
  found <- scan_excludes excludes handles ;;
  if found then ret tt else raise (ValueError "Unable to locate new window").

(** [self._strategies], keyed by prefix ([None] for no prefix). *)
Definition _strategies : list (option string * strategy) :=
  [ (Some "title", _select_by_title);
    (Some "name", _select_by_name);
    (Some "url", _select_by_url);
    (None, _select_by_default) ].

Definition prefix_eqb (p q : option string) : bool :=
  match p, q with
  | None, None => true
  | Some a, Some b => String.eqb a b
  | _, _ => false
  end.

(** [dict.get] *)
Fixpoint dict_get {V} (key : option string) (d : list (option string * V))
  : option V :=
  match d with
  | [] => None
  | (k, v) :: t => if prefix_eqb k key then Some v else dict_get key t
  end.

(** What [select] can be called with: [None], a list of handles, a string. *)
Inductive Locator : Type :=
| LocNone
| LocList (excludes : list string)
| LocStr (s : string).

(** The tail of [select]: parse, look the strategy up, run it. *)
Definition select_parsed (locator : option string) : M unit :=
  let '(prefix, criteria) := _parse_locator locator in
  match dict_get prefix _strategies with
  | None =>
      match prefix with
      | Some p =>
          raise (ValueError
                   ("Window locator with prefix '" ++ p ++ "' is not supported"))
      | None => raise TypeError
      end
  | Some strat => strat criteria
  end.

(** [select] *)
Definition select (locator : Locator) : M unit :=
  match locator with
  | LocNone => select_parsed None
  | LocList excludes => _select_by_excludes excludes
  | LocStr l =>
      if String.eqb (lower l) "self" || String.eqb (lower l) "current"
      then ret tt
      else if String.eqb (lower l) "new" || String.eqb (lower l) "popup"
      then _select_by_last_index
      else select_parsed (Some l)
  end.

(** ** Vocabulary of the statements *)

(** The snapshot [_get_current_window_info] takes of window [w] reached
    under [handle]; without Javascript the id and the name are unknown. *)
Definition info_of (javascript : bool) (handle : string) (w : Window)
  : WindowInfo :=
  mkWindowInfo
    handle
    (if javascript
     then match win_id w with Some i => i | None => "undefined" end
     else "undefined")
    (if javascript then or_undefined (win_name w) else "undefined")
    (or_undefined (win_title w))
    (or_undefined (win_url w)).

(** The session after [_get_current_window_info] has run in it. *)
Definition inspected (b : Browser) : Browser :=
  log CallUrl (log CallTitle (log CallCurrent (log CallScript b))).

(** The session after switching to [handle]. *)
Definition switched (handle : string) (b : Browser) : Browser :=
  set_focus handle (log (CallSwitch handle) b).

(** The session after one step of a scan: switch to [handle], inspect. *)
Definition visited (b : Browser) (handle : string) : Browser :=
  inspected (switched handle b).

(** [handle] names a window that is open. *)
Definition is_open (b : Browser) (handle : string) : Prop :=
  exists w, find_window handle (br_windows b) = Some w.

(** The windows of the handle list, in its order. *)
Definition listed_windows (b : Browser) (ws : list Window) : Prop :=
  Forall2 (fun h w => find_window h (br_windows b) = Some w) (br_handles b) ws.

(** [ws] are the open windows of the handles [hs], none of them accepted
    by [matcher]. *)
Definition all_miss (wins : list (string * Window)) (js : bool)
           (matcher : WindowInfo -> bool)
           (hs : list string) (ws : list Window) : Prop :=
  Forall2 (fun h w => find_window h wins = Some w /\
                      matcher (info_of js h w) = false) hs ws.

(** The title a snapshot of [w] shows. *)
Definition title_of (w : Window) : string := or_undefined (win_title w).

(** The matcher [_select_by_title] builds for the criteria [c]. *)
Definition title_matcher (c : string) : WindowInfo -> bool :=
  fun window_info =>
    String.eqb (lower (strip (wi_title window_info))) (lower c).

(** The comparison key of the matching strategies. *)
Definition key (s : string) : string := lower (strip s).

(** Two sessions over the same windows: only the focus and the request
    log may differ. *)
Definition same_session (b b' : Browser) : Prop :=
  br_handles b' = br_handles b /\
  br_windows b' = br_windows b /\
  br_javascript b' = br_javascript b.

(** [m] neither opens nor closes a window. *)
Definition preserves {A} (m : M A) : Prop :=
  forall b, same_session b (snd (m b)).

(** The criteria under which the default strategy goes to the first
    window: [None], empty, or [null] in any case. *)
Definition main_criteria (criteria : option string) : Prop :=
  criteria = None \/ criteria = Some "" \/
  exists c, criteria = Some c /\ lower c = "null".

(** The locators that reach the default strategy with such a criteria:
    [None], the empty string, and [main] or [null] in any case. *)
Definition main_locator (locator : Locator) : Prop :=
  locator = LocNone \/
  exists l, locator = LocStr l /\
            (l = "" \/ lower l = "main" \/ lower l = "null").

(** The name a snapshot of [w] shows. *)
Definition name_of (javascript : bool) (w : Window) : string :=
  if javascript then or_undefined (win_name w) else "undefined".

(** The URL a snapshot of [w] shows. *)
Definition url_of (w : Window) : string := or_undefined (win_url w).

(** The criteria [_parse_locator] hands to the name strategy for the text
    [c] after the [=]. *)
Definition name_criteria (c : string) : string :=
  if String.eqb (lower (strip c)) "main" then "" else strip c.

(** The last element of a handle list, or [d] for the empty list. *)
Definition last_or (hs : list string) (d : option string) : option string :=
  match rev hs with
  | [] => d
  | h :: _ => Some h
  end.

(** What the loop of [_select_by_default] accepts: the handle itself, or a
    window whose name or title, trimmed and lowercased, is the lowercased
    criteria. *)
Definition default_match (javascript : bool) (c h : string) (w : Window)
  : bool :=
  String.eqb c h
  || String.eqb (key (name_of javascript w)) (lower c)
  || String.eqb (key (title_of w)) (lower c).

(** [ws] are the open windows of the handles [hs], none of them accepted
    by the default strategy for [c]. *)
Definition all_default_miss (wins : list (string * Window)) (js : bool)
           (c : string) (hs : list string) (ws : list Window) : Prop :=
  Forall2 (fun h w => find_window h wins = Some w /\
                      default_match js c h w = false) hs ws.

(** The locators that reach the scan of the default strategy: no [=], not
    empty, and none of the reserved words in any case. *)
Definition plain_locator (l : string) : Prop :=
  contains "=" l = false /\ l <> "" /\
  ~ In (lower l) ["self"; "current"; "new"; "popup"; "main"; "null"].

(** The string starts with a character [strip] removes. *)
Definition head_space (s : string) : bool :=
  match s with
  | EmptyString => false
  | String a _ => is_space a
  end.

(** The string ends with a character [strip] removes. *)
Fixpoint tail_space (s : string) : bool :=
  match s with
  | EmptyString => false
  | String a EmptyString => is_space a
  | String _ t => tail_space t
  end.

(** *** Sample sessions *)

Definition home : Window := mkWindow None "" "Home" "http://site/".
Definition login : Window := mkWindow (Some "w2") "popup1" "Login" "http://site/login".
Definition help : Window := mkWindow None "help" "Help" "http://site/help".

(** Two open windows, the first focused. *)
Definition two_windows : Browser :=
  mkBrowser ["A"; "B"] [("A", home); ("B", login)] (Some "A") true [].

(** Three listed handles; the window of the second has closed; the third
    is focused. *)
Definition middle_closed : Browser :=
  mkBrowser ["A"; "B"; "C"] [("A", home); ("C", help)] (Some "C") true [].

(** No window at all. *)
Definition no_windows : Browser := mkBrowser [] [] None true [].

(** A window whose title differs from that of [login] by case only. *)
Definition login_lowercase : Window :=
  mkWindow None "" "login" "http://site/login2".

(** Two open windows whose titles, [Login] and [login], are different
    strings; the second is focused. *)
Definition case_twins : Browser :=
  mkBrowser ["A"; "B"] [("A", login); ("B", login_lowercase)] (Some "B")
            true [].

(** ** Facts about the string methods *)

Section StringFacts.

Lemma is_space_lower_char (c : ascii) :
  is_space (lower_char c) = is_space c.
Proof.
  destruct c as [[] [] [] [] [] [] [] []]; reflexivity.
Qed.

Lemma eqb_lower_char_equals (c : ascii) :
  Ascii.eqb (lower_char c) "=" = Ascii.eqb c "=".
Proof.
  destruct c as [[] [] [] [] [] [] [] []]; reflexivity.
Qed.

Lemma lower_lstrip (s : string) : lower (lstrip s) = lstrip (lower s).
Proof.
  induction s as [|c t IH]; simpl; [reflexivity|].
  rewrite is_space_lower_char.
  destruct (is_space c); [exact IH | reflexivity].
Qed.

Lemma lower_rstrip (s : string) : lower (rstrip s) = rstrip (lower s).
Proof.
  induction s as [|c t IH]; simpl; [reflexivity|].
  rewrite <- IH, is_space_lower_char.
  destruct (rstrip t); simpl; [destruct (is_space c)|]; reflexivity.
Qed.

(** [s.strip().lower()], as the code writes it, is [s.lower().strip()]. *)
Lemma lower_strip (s : string) : lower (strip s) = strip (lower s).
Proof.
  unfold strip. now rewrite lower_rstrip, lower_lstrip.
Qed.

Lemma contains_lower (s : string) :
  contains "=" (lower s) = contains "=" s.
Proof.
  induction s as [|c t IH]; simpl; [reflexivity|].
  now rewrite eqb_lower_char_equals, IH.
Qed.

Lemma contains_app (c : ascii) (s t : string) :
  contains c (s ++ t) = contains c s || contains c t.
Proof.
  induction s as [|d s IH]; simpl; [reflexivity|].
  now rewrite IH, orb_assoc.
Qed.

(** A string with no [=] is returned whole by [partition]. *)
Lemma partition_absent (s : string) :
  contains "=" s = false -> partition "=" s = (s, "", "").
Proof.
  induction s as [|c t IH]; simpl; [reflexivity|].
  intros H. apply orb_false_iff in H as [Hc Ht].
  rewrite Hc, (IH Ht). reflexivity.
Qed.

(** [partition] splits at the first [=]. *)
Lemma partition_first (p c : string) :
  contains "=" p = false ->
  partition "=" (p ++ "=" ++ c) = (p, "=", c).
Proof.
  change ("=" ++ c) with (String "=" c).
  induction p as [|d t IH]; simpl; [reflexivity|].
  intros H. apply orb_false_iff in H as [Hd Ht].
  rewrite Hd, (IH Ht). reflexivity.
Qed.

(** A locator with an [=] is none of the keywords, which have none. *)
Lemma lower_eqb_keyword (l k : string) :
  contains "=" l = true -> contains "=" k = false ->
  String.eqb (lower l) k = false.
Proof.
  intros Hl Hk. destruct (String.eqb_spec (lower l) k) as [E|]; [|reflexivity].
  rewrite <- E, contains_lower in Hk. congruence.
Qed.

Lemma space_not_equals (c : ascii) :
  is_space c = true -> Ascii.eqb c "=" = false.
Proof.
  destruct c as [[] [] [] [] [] [] [] []]; vm_compute; congruence.
Qed.

Lemma contains_lstrip (s : string) :
  contains "=" (lstrip s) = contains "=" s.
Proof.
  induction s as [|c t IH]; simpl; [reflexivity|].
  destruct (is_space c) eqn:Hc; [|reflexivity].
  now rewrite (space_not_equals c Hc), IH.
Qed.

Lemma contains_rstrip (s : string) :
  contains "=" (rstrip s) = contains "=" s.
Proof.
  induction s as [|c t IH]; simpl; [reflexivity|].
  rewrite <- IH. destruct (rstrip t) as [|d r]; [|reflexivity].
  destruct (is_space c) eqn:Hc; simpl.
  - now rewrite (space_not_equals c Hc).
  - now rewrite orb_false_r.
Qed.

(** Stripping and lowercasing neither add nor remove an [=]. *)
Lemma contains_strip_lower (s : string) :
  contains "=" (strip (lower s)) = contains "=" s.
Proof.
  unfold strip. now rewrite contains_rstrip, contains_lstrip, contains_lower.
Qed.

Lemma length_app_sep_pos (p c : string) :
  (0 <? String.length (p ++ "=" ++ c))%nat = true.
Proof. destruct p; reflexivity. Qed.

End StringFacts.

(** ** Locator parsing *)

Section ParseLocator.

(** A locator [p=c] whose part before the first [=] is [p]: the parser
    takes the stripped, lowercased [p] as prefix and the stripped [c] as
    criteria, then applies the [main] rule when the prefix is [name]. *)
Lemma parse_locator_split (p c : string) :
  contains "=" p = false ->
  _parse_locator (Some (p ++ "=" ++ c)) =
  (Some (lower (strip p)),
   Some (if String.eqb (lower (strip p)) "name"
            && String.eqb (lower (strip c)) "main"
         then "" else strip c)).
Proof.
  intros Hp. unfold _parse_locator.
  rewrite length_app_sep_pos, (partition_first p c Hp).
  cbn [String.length Nat.ltb Nat.leb].
  destruct (String.eqb (lower (strip p)) "name");
    [destruct (String.eqb (lower (strip c)) "main")|]; reflexivity.
Qed.

(** A locator without [=] has no prefix; [main] in any case becomes the
    empty criteria. *)
Lemma parse_locator_bare (l : string) :
  contains "=" l = false ->
  _parse_locator (Some l) =
  (None, Some (if String.eqb (lower l) "main" then "" else l)).
Proof.
  intros Hl. unfold _parse_locator.
  rewrite (partition_absent l Hl).
  destruct (0 <? String.length l)%nat; cbn [String.length Nat.ltb Nat.leb];
    destruct (String.eqb (lower l) "main"); reflexivity.
Qed.

End ParseLocator.

(** C2 (as amended): for a locator [p=c] whose prefix, lowercased and
    stripped, is [title], [name] or [url], parsing yields that prefix and
    the stripped criteria, except that under the prefix [name] a criteria
    equal to [main] in any case becomes the empty string. *)
Theorem parse_locator_known_prefix (p c : string) :
  In (strip (lower p)) ["title"; "name"; "url"] ->
  _parse_locator (Some (p ++ "=" ++ c)) =
  (Some (strip (lower p)),
   Some (if String.eqb (strip (lower p)) "name"
            && String.eqb (lower (strip c)) "main"
         then "" else strip c)).
Proof.
  intros Hin.
  assert (Hp : contains "=" p = false).
  { rewrite <- contains_strip_lower.
    destruct Hin as [E|[E|[E|[]]]]; rewrite <- E; reflexivity. }
  rewrite <- lower_strip. now apply parse_locator_split.
Qed.

Lemma parse_locator_known_prefix_witness :
  In (strip (lower " Title ")) ["title"; "name"; "url"] /\
  _parse_locator (Some (" Title " ++ "=" ++ " Log In ")) =
  (Some "title", Some "Log In").
Proof.
  split; [simpl; auto|].
  exact (parse_locator_known_prefix " Title " " Log In " (or_introl eq_refl)).
Defined.

(** C2 (as stated) fails at [name=main]: the criteria is not the stripped
    right-hand side but the empty string. *)
Lemma parse_locator_name_main_counterexample :
  In (strip (lower "name")) ["title"; "name"; "url"] /\
  _parse_locator (Some ("name" ++ "=" ++ "main")) = (Some "name", Some "") /\
  _parse_locator (Some ("name" ++ "=" ++ "main")) <>
  (Some (strip (lower "name")), Some (strip "main")).
Proof.
  split; [simpl; auto|]. split; [reflexivity|]. discriminate.
Qed.

(** ** Facts about the driver *)

Section DriverFacts.

Lemma same_session_refl (b : Browser) : same_session b b.
Proof. repeat split. Qed.

Lemma same_session_trans (b1 b2 b3 : Browser) :
  same_session b1 b2 -> same_session b2 b3 -> same_session b1 b3.
Proof.
  intros (H1 & H2 & H3) (K1 & K2 & K3).
  repeat split; congruence.
Qed.

Lemma is_open_same_session (b b' : Browser) (h : string) :
  same_session b b' -> is_open b h -> is_open b' h.
Proof. intros (_ & Hw & _) [w Hf]. exists w. now rewrite Hw. Qed.

Lemma preserves_ret {A} (a : A) : preserves (ret a).
Proof. intros b. apply same_session_refl. Qed.

Lemma preserves_raise {A} (e : exn) : preserves (@raise A e).
Proof. intros b. apply same_session_refl. Qed.

Lemma preserves_bind {A B} (m : M A) (k : A -> M B) :
  preserves m -> (forall a, preserves (k a)) -> preserves (bind m k).
Proof.
  intros Hm Hk b. unfold bind. specialize (Hm b).
  destruct (m b) as [[a|e] b']; simpl in *; [|exact Hm].
  eapply same_session_trans; [exact Hm | apply Hk].
Qed.

Lemma preserves_try_except {A} (m : M A) (handler : exn -> option (M A)) :
  preserves m ->
  (forall e h, handler e = Some h -> preserves h) ->
  preserves (try_except m handler).
Proof.
  intros Hm Hh b. unfold try_except. specialize (Hm b).
  destruct (m b) as [[a|e] b']; simpl in *; [exact Hm|].
  destruct (handler e) as [h|] eqn:E; [|exact Hm].
  eapply same_session_trans; [exact Hm | apply (Hh e h E)].
Qed.

Lemma preserves_try_finally {A} (m : M A) (f : M unit) :
  preserves m -> preserves f -> preserves (try_finally m f).
Proof.
  intros Hm Hf b. unfold try_finally. specialize (Hm b).
  destruct (m b) as [r b']; simpl in *. specialize (Hf b').
  destruct (f b') as [[u|e] b'']; simpl in *;
    eapply same_session_trans; eauto.
Qed.

Lemma preserves_window_handles : preserves window_handles.
Proof. intros b. repeat split. Qed.

Lemma preserves_current_window_handle : preserves current_window_handle.
Proof.
  intros b. unfold current_window_handle.
  destruct (focused b) as [[h w]|]; repeat split.
Qed.

Lemma preserves_switch_to_window (h : string) :
  preserves (switch_to_window h).
Proof.
  intros b. unfold switch_to_window.
  destruct (find_window h (br_windows b)); repeat split.
Qed.

Lemma preserves_execute_script : preserves execute_script_id_name.
Proof.
  intros b. unfold execute_script_id_name.
  destruct (br_javascript b); [destruct (focused b) as [[h w]|]|];
    repeat split.
Qed.

Lemma preserves_title : preserves title.
Proof.
  intros b. unfold title. destruct (focused b) as [[h w]|]; repeat split.
Qed.

Lemma preserves_current_url : preserves current_url.
Proof.
  intros b. unfold current_url.
  destruct (focused b) as [[h w]|]; repeat split.
Qed.

End DriverFacts.

Create HintDb frame discriminated.
#[export] Hint Resolve preserves_ret preserves_raise preserves_bind
  preserves_try_except preserves_try_finally preserves_window_handles
  preserves_current_window_handle preserves_switch_to_window
  preserves_execute_script preserves_title preserves_current_url : frame.

(** ** Facts about the scans *)

Section ScanFacts.

Lemma preserves_get_current_window_info : preserves _get_current_window_info.
Proof.
  unfold _get_current_window_info.
  apply preserves_bind; [apply preserves_try_except; auto with frame|].
  - intros e h. destruct (is_WebDriverException e); [|discriminate].
    intros [= <-]. auto with frame.
  - intros. repeat (apply preserves_bind; [auto with frame|intros]).
    auto with frame.
Qed.

Lemma preserves_read_starting_handle : preserves read_starting_handle.
Proof.
  unfold read_starting_handle. apply preserves_try_except.
  - auto with frame.
  - intros e h. destruct e; try discriminate. intros [= <-]. auto with frame.
Qed.

Lemma preserves_restore (s : option string) : preserves (restore s).
Proof.
  destruct s as [h|]; simpl; [destruct (truthy h)|]; auto with frame.
Qed.

Lemma preserves_collect_infos (hs : list string) :
  preserves (collect_infos hs).
Proof.
  induction hs as [|h t IH]; simpl; [auto with frame|].
  apply preserves_bind; [auto with frame|intros _].
  apply preserves_bind; [apply preserves_get_current_window_info|intros i].
  apply preserves_bind; [exact IH|intros]. auto with frame.
Qed.

(** Switching to an open window succeeds and moves the focus. *)
Lemma switch_open (h : string) (b : Browser) :
  is_open b h -> switch_to_window h b = (Ok tt, switched h b).
Proof.
  intros [w Hw]. unfold switch_to_window. now rewrite Hw.
Qed.

(** Switching to a closed window raises and leaves the focus. *)
Lemma switch_closed (h : string) (b : Browser) :
  find_window h (br_windows b) = None ->
  switch_to_window h b =
  (Raise NoSuchWindowException, log (CallSwitch h) b).
Proof.
  intros Hw. unfold switch_to_window. now rewrite Hw.
Qed.

Lemma focused_log (c : call) (b : Browser) : focused (log c b) = focused b.
Proof. reflexivity. Qed.

Lemma focused_switched (h : string) (w : Window) (b : Browser) :
  find_window h (br_windows b) = Some w ->
  focused (switched h b) = Some (h, w).
Proof. intros Hw. unfold focused. simpl. now rewrite Hw. Qed.

(** Inspecting the focused window yields its snapshot and four requests. *)
Lemma info_focused (h : string) (w : Window) (b : Browser) :
  focused b = Some (h, w) ->
  _get_current_window_info b =
  (Ok (info_of (br_javascript b) h w), inspected b).
Proof.
  intros Hf.
  unfold _get_current_window_info, bind, try_except, execute_script_id_name,
    current_window_handle, title, current_url, info_of, inspected, ret.
  destruct (br_javascript b) eqn:Hjs;
    repeat first [ rewrite focused_log | rewrite Hf
                 | progress cbn [fst snd is_WebDriverException] ];
    reflexivity.
Qed.

(** One step of a scan over an open window. *)
Lemma visit_open {A} (h : string) (w : Window) (k : WindowInfo -> M A)
      (b : Browser) :
  find_window h (br_windows b) = Some w ->
  (switch_to_window h ;; info <- _get_current_window_info ;; k info) b =
  k (info_of (br_javascript b) h w) (visited b h).
Proof.
  intros Hw. unfold bind at 1.
  rewrite (switch_open h b (ex_intro _ w Hw)).
  unfold bind. rewrite (info_focused h w _ (focused_switched h w b Hw)).
  reflexivity.
Qed.

Lemma visited_same_session (b : Browser) (h : string) :
  same_session b (visited b h).
Proof. repeat split. Qed.

Lemma fold_visited_same_session (hs : list string) (b : Browser) :
  same_session b (fold_left visited hs b).
Proof.
  revert b. induction hs as [|h t IH]; intros b; simpl.
  - apply same_session_refl.
  - eapply same_session_trans; [apply visited_same_session | apply IH].
Qed.

(** Reading the starting handle never raises: a missing focus gives
    [None]. *)
Lemma read_starting_handle_run (b : Browser) :
  read_starting_handle b =
  (Ok (option_map fst (focused b)), log CallCurrent b).
Proof.
  unfold read_starting_handle, try_except, bind, current_window_handle.
  destruct (focused b) as [[s w]|]; reflexivity.
Qed.

Lemma focused_is_open (s : string) (w : Window) (b : Browser) :
  focused b = Some (s, w) -> br_focus b = Some s /\ is_open b s.
Proof.
  unfold focused, is_open. destruct (br_focus b) as [h|]; [|discriminate].
  destruct (find_window h (br_windows b)) as [w'|] eqn:E; [|discriminate].
  intros [= <- <-]. eauto.
Qed.

(** Restoring a known, open starting window puts the focus back. *)
Lemma restore_open (s : string) (b : Browser) :
  truthy s = true -> is_open b s ->
  restore (Some s) b = (Ok tt, switched s b).
Proof.
  intros Ht Ho. unfold restore. rewrite Ht. now apply switch_open.
Qed.

Section OverWindows.

Variable wins : list (string * Window).
Variable js : bool.

(** A scan over open windows that all fail the matcher visits each and
    runs to the end. *)
Lemma scan_matching_miss (matcher : WindowInfo -> bool)
      (hs : list string) (ws : list Window) :
  all_miss wins js matcher hs ws ->
  forall b, br_windows b = wins -> br_javascript b = js ->
  scan_matching matcher hs b = (Ok false, fold_left visited hs b).
Proof.
  induction 1 as [|h w hs ws [Hw Hm] _ IH]; intros b Hb Hj;
    [reflexivity|].
  cbn [scan_matching fold_left].
  rewrite <- Hb in Hw. rewrite (visit_open h w _ b Hw), Hj, Hm.
  now apply IH.
Qed.

(** The scan stops at the first window the matcher accepts, leaving
    it focused. *)
Lemma scan_matching_hit (matcher : WindowInfo -> bool)
      (pre post : list string) (wpre : list Window)
      (h : string) (w : Window) :
  all_miss wins js matcher pre wpre ->
  find_window h wins = Some w ->
  matcher (info_of js h w) = true ->
  forall b, br_windows b = wins -> br_javascript b = js ->
  scan_matching matcher (pre ++ h :: post) b =
  (Ok true, visited (fold_left visited pre b) h).
Proof.
  induction 1 as [|x wx pre wpre [Hw Hm] _ IH]; intros Hh Hhit b Hb Hj.
  - cbn [app scan_matching fold_left].
    rewrite <- Hb in Hh. now rewrite (visit_open h w _ b Hh), Hj, Hhit.
  - cbn [app scan_matching fold_left].
    rewrite <- Hb in Hw. rewrite (visit_open x wx _ b Hw), Hj, Hm.
    now apply IH.
Qed.

(** The loop of [get_window_infos] over open windows collects their
    snapshots in order. *)
Lemma collect_infos_open (hs : list string) (ws : list Window) :
  Forall2 (fun h w => find_window h wins = Some w) hs ws ->
  forall b, br_windows b = wins -> br_javascript b = js ->
  collect_infos hs b =
  (Ok (map (fun hw => info_of js (fst hw) (snd hw)) (combine hs ws)),
   fold_left visited hs b).
Proof.
  induction 1 as [|h w hs ws Hw _ IH]; intros b Hb Hj; [reflexivity|].
  cbn [collect_infos fold_left combine map fst snd].
  rewrite <- Hb in Hw. rewrite (visit_open h w _ b Hw).
  unfold bind. rewrite (IH (visited b h) Hb Hj), Hj. reflexivity.
Qed.

End OverWindows.

(** The session in which the loop of a scan starts: the starting handle
    and the handle list have been read. *)
Lemma scan_prologue {A} (k : option string -> list string -> M A)
      (b : Browser) :
  (s <- read_starting_handle ;; hs <- window_handles ;; k s hs) b =
  k (option_map fst (focused b)) (br_handles b)
    (log CallHandles (log CallCurrent b)).
Proof.
  unfold bind at 1. rewrite read_starting_handle_run. reflexivity.
Qed.

(** [_select_matching] when the first accepted window is [h]. *)
Lemma select_matching_hit (matcher : WindowInfo -> bool) (err : string)
      (pre post : list string) (wpre : list Window)
      (h : string) (w : Window) (b : Browser) :
  br_handles b = (pre ++ h :: post)%list ->
  all_miss (br_windows b) (br_javascript b) matcher pre wpre ->
  find_window h (br_windows b) = Some w ->
  matcher (info_of (br_javascript b) h w) = true ->
  _select_matching matcher err b =
  (Ok tt,
   visited (fold_left visited pre (log CallHandles (log CallCurrent b))) h).
Proof.
  intros Hh Hpre Hw Hm. unfold _select_matching.
  rewrite scan_prologue, Hh. unfold bind.
  now rewrite (scan_matching_hit _ _ matcher pre post wpre h w Hpre Hw Hm).
Qed.

(** [_select_matching] when no window is accepted and the starting
    window is known. *)
Lemma select_matching_miss (matcher : WindowInfo -> bool) (err : string)
      (ws : list Window) (s : string) (w0 : Window) (b : Browser) :
  all_miss (br_windows b) (br_javascript b) matcher (br_handles b) ws ->
  focused b = Some (s, w0) -> truthy s = true ->
  _select_matching matcher err b =
  (Raise (ValueError err),
   switched s (fold_left visited (br_handles b)
                         (log CallHandles (log CallCurrent b)))).
Proof.
  intros Hall Hf Ht. unfold _select_matching.
  rewrite scan_prologue, Hf. cbn [option_map fst]. unfold bind.
  rewrite (scan_matching_miss _ _ matcher _ ws Hall) by reflexivity.
  rewrite restore_open; [reflexivity | exact Ht |].
  apply (is_open_same_session (log CallHandles (log CallCurrent b))).
  - apply fold_visited_same_session.
  - apply (focused_is_open s w0 b Hf).
Qed.

(** The part of two parallel lists before a common index. *)
Lemma Forall2_split_at {A B} (R : A -> B -> Prop) (k : nat) :
  forall (l : list A) (m : list B) (a : A) (c : B),
  Forall2 R l m -> nth_error l k = Some a -> nth_error m k = Some c ->
  exists l1 l2 m1 m2,
    l = (l1 ++ a :: l2)%list /\ m = (m1 ++ c :: m2)%list /\ Forall2 R l1 m1 /\ R a c.
Proof.
  induction k as [|k IH]; intros l m a c HR Hl Hm;
    destruct HR as [|x y l m Hxy HR]; try discriminate.
  - injection Hl as <-. injection Hm as <-.
    exists [], l, [], m. repeat split; auto.
  - destruct (IH l m a c HR Hl Hm) as (l1 & l2 & m1 & m2 & -> & -> & H1 & H2).
    exists (x :: l1), l2, (y :: m1), m2. repeat split; auto.
Qed.

(** In a list whose images under [f] are pairwise distinct, nothing
    before an element has its image. *)
Lemma NoDup_map_before {A B} (f : A -> B) (l1 l2 : list A) (a : A) :
  NoDup (map f (l1 ++ a :: l2)) -> Forall (fun x => f x <> f a) l1.
Proof.
  rewrite map_app. cbn [map]. intros Hnd.
  apply NoDup_remove_2 in Hnd. apply Forall_forall. intros x Hx E.
  apply Hnd, in_or_app. left. rewrite <- E. now apply in_map.
Qed.

End ScanFacts.

(** ** Dispatch *)

Section Dispatch.

(** A locator with an [=] is not a keyword: [select] parses it. *)
Lemma select_with_equals (l : string) :
  contains "=" l = true -> select (LocStr l) = select_parsed (Some l).
Proof.
  intros Hl. unfold select.
  rewrite (lower_eqb_keyword l "self"), (lower_eqb_keyword l "current"),
    (lower_eqb_keyword l "new"), (lower_eqb_keyword l "popup");
    auto.
Qed.

Lemma select_title (c : string) :
  select (LocStr ("title=" ++ c)) = _select_by_title (Some (strip c)).
Proof.
  rewrite select_with_equals by reflexivity.
  unfold select_parsed.
  change ("title=" ++ c) with ("title" ++ "=" ++ c).
  rewrite parse_locator_split by reflexivity.
  reflexivity.
Qed.

End Dispatch.

(** ** Selecting by title *)

Section ByTitle.

Lemma all_miss_intro (wins : list (string * Window)) (js : bool)
      (matcher : WindowInfo -> bool) (hs : list string) (ws : list Window) :
  Forall2 (fun h w => find_window h wins = Some w) hs ws ->
  Forall (fun w => forall h, matcher (info_of js h w) = false) ws ->
  all_miss wins js matcher hs ws.
Proof.
  unfold all_miss.
  induction 1 as [|h w hs ws Hw _ IH]; intros Hall; [constructor|].
  inversion Hall as [|? ? Hm Hrest]; subst.
  constructor; [split; [exact Hw | apply Hm] | apply IH, Hrest].
Qed.

Lemma title_matcher_miss (js : bool) (c : string) (ws : list Window) :
  Forall (fun w => key (title_of w) <> key c) ws ->
  Forall (fun w => forall h, title_matcher (strip c) (info_of js h w) = false)
         ws.
Proof.
  apply Forall_impl. intros w Hne h. unfold title_matcher. cbn [info_of wi_title].
  now apply String.eqb_neq.
Qed.

Lemma not_found_mentions (pre c post : string) :
  substring_of c (pre ++ c ++ post).
Proof. now exists pre, post. Qed.

(** Selecting [title=c], where [c] equals the title of window [k] under
    the comparison, among windows whose titles are distinct under the
    comparison. *)
Lemma select_title_hit (b : Browser) (ws : list Window)
      (k : nat) (h : string) (w : Window) (c : string) :
  listed_windows b ws ->
  NoDup (map (fun w => key (title_of w)) ws) ->
  nth_error (br_handles b) k = Some h -> nth_error ws k = Some w ->
  key c = key (title_of w) ->
  exists pre,
    select (LocStr ("title=" ++ c)) b =
    (Ok tt,
     visited (fold_left visited pre (log CallHandles (log CallCurrent b))) h).
Proof.
  intros Hl Hnd Hh Hk Hc.
  destruct (Forall2_split_at _ k _ _ h w Hl Hh Hk)
    as (pre & post & wpre & wpost & Hhs & -> & Hpre & Hw).
  exists pre. rewrite select_title. unfold _select_by_title.
  apply (select_matching_hit _ _ pre post wpre h w b Hhs); [|exact Hw|].
  - apply all_miss_intro; [exact Hpre|].
    apply (title_matcher_miss (br_javascript b) c).
    rewrite Hc.
    apply (NoDup_map_before (fun w => key (title_of w)) _ _ _ Hnd).
  - cbn [info_of wi_title]. apply String.eqb_eq. symmetry. exact Hc.
Qed.

(** Selecting a title no window has, from a known starting window. *)
Lemma select_title_miss (b : Browser) (ws : list Window)
      (s : string) (w0 : Window) (c : string) :
  listed_windows b ws ->
  focused b = Some (s, w0) -> truthy s = true ->
  Forall (fun w => key (title_of w) <> key c) ws ->
  select (LocStr ("title=" ++ c)) b =
  (Raise (ValueError ("Unable to locate window with title '" ++ strip c ++ "'")),
   switched s (fold_left visited (br_handles b)
                         (log CallHandles (log CallCurrent b)))).
Proof.
  intros Hl Hf Ht Hall. rewrite select_title. unfold _select_by_title.
  apply (select_matching_miss _ _ ws s w0 b); [|exact Hf|exact Ht].
  apply all_miss_intro; [exact Hl|].
  now apply (title_matcher_miss (br_javascript b) c).
Qed.

End ByTitle.

(** C4 (as amended): with the listed windows open, their titles pairwise
    distinct under the comparison (trimmed, case-insensitive) and a known
    starting window, selecting [title=c] for a [c] that equals the title
    of window [k] under that comparison (the title itself, or any other
    case or padding of it) succeeds and leaves window [k] focused;
    selecting a title that matches no window raises the not-found error,
    whose message contains the criteria, and leaves the starting window
    focused. *)
Theorem select_by_title_distinct_titles
        (b : Browser) (ws : list Window) (s : string) (w0 : Window) :
  listed_windows b ws ->
  NoDup (map (fun w => key (title_of w)) ws) ->
  focused b = Some (s, w0) -> truthy s = true ->
  (forall k h w c,
      nth_error (br_handles b) k = Some h -> nth_error ws k = Some w ->
      lower (strip c) = lower (strip (title_of w)) ->
      let r := select (LocStr ("title=" ++ c)) b in
      fst r = Ok tt /\ br_focus (snd r) = Some h)
  /\
  (forall c,
      Forall (fun w => key (title_of w) <> key c) ws ->
      let r := select (LocStr ("title=" ++ c)) b in
      exists msg,
        fst r = Raise (ValueError msg) /\
        msg = "Unable to locate window with title '" ++ strip c ++ "'" /\
        substring_of (strip c) msg /\
        br_focus (snd r) = Some s).
Proof.
  intros Hl Hnd Hf Ht. split.
  - intros k h w c Hh Hk Hc r. subst r.
    destruct (select_title_hit b ws k h w c Hl Hnd Hh Hk Hc) as [pre ->].
    split; reflexivity.
  - intros c Hall r. subst r.
    rewrite (select_title_miss b ws s w0 c Hl Hf Ht Hall).
    eexists. split; [reflexivity|]. split; [reflexivity|].
    split; [apply not_found_mentions | reflexivity].
Qed.

Lemma select_by_title_distinct_titles_witness :
  (let r := select (LocStr ("title=" ++ "Login")) two_windows in
   fst r = Ok tt /\ br_focus (snd r) = Some "B") /\
  (let r := select (LocStr ("title=" ++ "  loGIN ")) two_windows in
   fst r = Ok tt /\ br_focus (snd r) = Some "B") /\
  (let r := select (LocStr ("title=" ++ "missing")) two_windows in
   exists msg,
     fst r = Raise (ValueError msg) /\
     msg = "Unable to locate window with title '" ++ strip "missing" ++ "'" /\
     substring_of (strip "missing") msg /\
     br_focus (snd r) = Some "A").
Proof.
  assert (Hl : listed_windows two_windows [home; login]).
  { repeat constructor. }
  assert (Hnd : NoDup (map (fun w => key (title_of w)) [home; login])).
  { repeat constructor; simpl; intuition discriminate. }
  destruct (select_by_title_distinct_titles two_windows [home; login] "A" home
              Hl Hnd eq_refl eq_refl) as [Hhit Hmiss].
  split; [|split].
  - exact (Hhit 1 "B" login "Login" eq_refl eq_refl eq_refl).
  - exact (Hhit 1 "B" login "  loGIN " eq_refl eq_refl eq_refl).
  - apply Hmiss. repeat constructor; discriminate.
Defined.

(** C4 (as stated) fails when two titles differ by case only: the windows
    of [A] and [B] are titled [Login] and [login], two distinct titles, and
    [B] is focused; selecting [title=login], the exact title of window
    [B], succeeds but leaves window [A] focused, the first one whose title
    matches case-insensitively. *)
Lemma select_by_title_case_counterexample :
  listed_windows case_twins [login; login_lowercase] /\
  NoDup (map title_of [login; login_lowercase]) /\
  focused case_twins = Some ("B", login_lowercase) /\
  nth_error (br_handles case_twins) 1 = Some "B" /\
  nth_error [login; login_lowercase] 1 = Some login_lowercase /\
  (let r := select (LocStr ("title=" ++ title_of login_lowercase)) case_twins in
   fst r = Ok tt /\
   br_focus (snd r) = Some "A" /\
   br_focus (snd r) <> Some "B").
Proof.
  split; [repeat constructor|].
  split; [repeat constructor; simpl; intuition discriminate|].
  repeat split; discriminate.
Qed.

(** ** A scan that raises *)

(** C1: the handle list is [A; B; C], the window of [B] has closed and [C]
    is focused.  Each matching scan (title, name, url) switches to [A],
    finds no match there, raises [NoSuchWindowException] when it switches
    to [B], and exits with [A] focused: the starting window [C] is not
    restored, since [_select_matching] restores only after the loop has
    run to its end. *)
Theorem select_matching_raise_leaves_scanned_window :
  br_focus middle_closed = Some "C" /\
  (let r := select (LocStr "title=missing") middle_closed in
   fst r = Raise NoSuchWindowException /\ br_focus (snd r) = Some "A") /\
  (let r := select (LocStr "name=missing") middle_closed in
   fst r = Raise NoSuchWindowException /\ br_focus (snd r) = Some "A") /\
  (let r := select (LocStr "url=missing") middle_closed in
   fst r = Raise NoSuchWindowException /\ br_focus (snd r) = Some "A").
Proof.
  repeat split; vm_compute; reflexivity.
Qed.

(** ** Listing the windows *)

Section WindowInfos.

(** Whatever the loop of [get_window_infos] does, a known starting
    window is focused again when the call ends. *)
Lemma get_window_infos_focus (b : Browser) (s : string) (w0 : Window) :
  focused b = Some (s, w0) -> truthy s = true ->
  br_focus (snd (get_window_infos b)) = Some s /\
  same_session b (snd (get_window_infos b)).
Proof.
  intros Hf Ht. unfold get_window_infos, bind.
  rewrite read_starting_handle_run, Hf. cbn [option_map fst].
  unfold try_finally.
  pose proof (preserves_bind window_handles collect_infos
                preserves_window_handles preserves_collect_infos
                (log CallCurrent b)) as Hsame.
  unfold bind in Hsame.
  destruct (let (r, b') := window_handles (log CallCurrent b) in
            match r with
            | Ok a => collect_infos a b'
            | Raise e => (Raise e, b')
            end) as [r b'] eqn:E.
  cbn [snd] in Hsame.
  rewrite restore_open.
  - split; [reflexivity|]. exact Hsame.
  - exact Ht.
  - apply (is_open_same_session (log CallCurrent b)); [exact Hsame|].
    apply (focused_is_open s w0 b Hf).
Qed.

(** With every listed window open, the loop returns the snapshots in
    the order of the handle list. *)
Lemma get_window_infos_value (b : Browser) (ws : list Window)
      (s : string) (w0 : Window) :
  focused b = Some (s, w0) -> truthy s = true ->
  listed_windows b ws ->
  fst (get_window_infos b) =
  Ok (map (fun hw => info_of (br_javascript b) (fst hw) (snd hw))
          (combine (br_handles b) ws)).
Proof.
  intros Hf Ht Hl. unfold get_window_infos, bind.
  rewrite read_starting_handle_run, Hf. cbn [option_map fst].
  unfold try_finally, bind, window_handles.
  rewrite (collect_infos_open _ _ _ ws Hl) by reflexivity.
  rewrite restore_open; [reflexivity | exact Ht |].
  apply (is_open_same_session (log CallHandles (log CallCurrent b))).
  - apply fold_visited_same_session.
  - apply (focused_is_open s w0 b Hf).
Qed.

End WindowInfos.

(** C5: from a known starting window, [get_window_infos] ends with that
    window focused and the same windows open, whether its scan returned or
    raised and whatever the number of handles; when every listed window is
    open it returns one snapshot per handle, in the order of the handle
    list. *)
Theorem get_window_infos_restores
        (b : Browser) (s : string) (w0 : Window) :
  focused b = Some (s, w0) -> truthy s = true ->
  let r := get_window_infos b in
  br_focus (snd r) = Some s /\
  same_session b (snd r) /\
  (forall ws,
      listed_windows b ws ->
      fst r = Ok (map (fun hw => info_of (br_javascript b) (fst hw) (snd hw))
                      (combine (br_handles b) ws))).
Proof.
  intros Hf Ht r. subst r.
  destruct (get_window_infos_focus b s w0 Hf Ht) as [H1 H2].
  repeat split; try apply H2; [exact H1|].
  intros ws Hl. now apply (get_window_infos_value b ws s w0).
Qed.

Lemma get_window_infos_restores_witness :
  (let r := get_window_infos middle_closed in
   fst r = Raise NoSuchWindowException /\ br_focus (snd r) = Some "C") /\
  (let r := get_window_infos two_windows in
   br_focus (snd r) = Some "A" /\
   fst r = Ok [info_of true "A" home; info_of true "B" login]).
Proof.
  split.
  - split; [reflexivity|].
    exact (proj1 (get_window_infos_restores middle_closed "C" help
                    eq_refl eq_refl)).
  - destruct (get_window_infos_restores two_windows "A" home eq_refl eq_refl)
      as (Hfocus & _ & Hvalue).
    split; [exact Hfocus|].
    apply (Hvalue [home; login]). repeat constructor.
Defined.

(** ** The default strategy on the main window *)

Section MainWindow.

Lemma default_main_criteria (criteria : option string) :
  main_criteria criteria -> _select_by_default criteria = select_first_handle.
Proof.
  intros [->|[->|(c & -> & Hc)]]; try reflexivity.
  unfold _select_by_default. rewrite Hc. now rewrite orb_true_r.
Qed.

Lemma lower_without_equals (l k : string) :
  lower l = k -> contains "=" k = false -> contains "=" l = false.
Proof. intros <-. now rewrite contains_lower. Qed.

Lemma select_main_locator (locator : Locator) :
  main_locator locator -> select locator = select_first_handle.
Proof.
  intros [->|(l & -> & [->|[Hl|Hl]])]; try reflexivity.
  - unfold select, select_parsed. rewrite Hl. cbn [String.eqb Ascii.eqb Bool.eqb orb].
    rewrite (parse_locator_bare l (lower_without_equals l _ Hl eq_refl)), Hl.
    reflexivity.
  - unfold select, select_parsed. rewrite Hl. cbn [String.eqb Ascii.eqb Bool.eqb orb].
    rewrite (parse_locator_bare l (lower_without_equals l _ Hl eq_refl)), Hl.
    cbn [String.eqb Ascii.eqb Bool.eqb dict_get _strategies prefix_eqb].
    apply default_main_criteria. right. right. now exists l.
Qed.

Lemma select_first_handle_open (h : string) (rest : list string)
      (b : Browser) :
  br_handles b = h :: rest -> is_open b h ->
  select_first_handle b = (Ok tt, switched h (log CallHandles b)).
Proof.
  intros Hh Ho. unfold select_first_handle, bind, window_handles.
  rewrite Hh. now apply switch_open.
Qed.

Lemma select_first_handle_empty (b : Browser) :
  br_handles b = [] ->
  select_first_handle b = (Raise IndexError, log CallHandles b).
Proof.
  intros Hh. unfold select_first_handle, bind, window_handles.
  now rewrite Hh.
Qed.

End MainWindow.

(** C7: when the first listed handle is open, the default strategy with a
    criteria that is [None], empty or [null] in any case, and [select] with
    a locator that is [None], empty, or [main] or [null] in any case, read
    the handle list and switch to its first handle: two requests, no
    window inspected, no restoration. *)
Theorem select_main_switches_to_first
        (b : Browser) (h : string) (rest : list string) :
  br_handles b = h :: rest -> is_open b h ->
  (forall criteria,
      main_criteria criteria ->
      _select_by_default criteria b = (Ok tt, switched h (log CallHandles b)))
  /\
  (forall locator,
      main_locator locator ->
      select locator b = (Ok tt, switched h (log CallHandles b))).
Proof.
  intros Hh Ho. split.
  - intros criteria Hc. rewrite (default_main_criteria criteria Hc).
    now apply (select_first_handle_open h rest).
  - intros locator Hl. rewrite (select_main_locator locator Hl).
    now apply (select_first_handle_open h rest).
Qed.

Lemma select_main_switches_to_first_witness :
  _select_by_default (Some "NULL") (switched "B" two_windows) =
  (Ok tt, switched "A" (log CallHandles (switched "B" two_windows))) /\
  select (LocStr "Main") (switched "B" two_windows) =
  (Ok tt, switched "A" (log CallHandles (switched "B" two_windows))).
Proof.
  assert (Ho : is_open (switched "B" two_windows) "A").
  { exists home. reflexivity. }
  destruct (select_main_switches_to_first (switched "B" two_windows) "A" ["B"]
              eq_refl Ho) as [Hc Hl].
  split.
  - apply Hc. right. right. exists "NULL". split; reflexivity.
  - apply Hl. right. exists "Main". split; [reflexivity|].
    right. left. reflexivity.
Defined.

(** C10: with an empty handle list, the same calls read the handle list
    and raise [IndexError] from [handles[0]]; no error of the module's own
    is raised and no window is switched to. *)
Theorem select_main_without_windows (b : Browser) :
  br_handles b = [] ->
  (forall criteria,
      main_criteria criteria ->
      _select_by_default criteria b = (Raise IndexError, log CallHandles b))
  /\
  (forall locator,
      main_locator locator ->
      select locator b = (Raise IndexError, log CallHandles b)).
Proof.
  intros Hh. split.
  - intros criteria Hc. rewrite (default_main_criteria criteria Hc).
    now apply select_first_handle_empty.
  - intros locator Hl. rewrite (select_main_locator locator Hl).
    now apply select_first_handle_empty.
Qed.

Lemma select_main_without_windows_witness :
  _select_by_default (Some "") no_windows =
  (Raise IndexError, log CallHandles no_windows) /\
  select LocNone no_windows = (Raise IndexError, log CallHandles no_windows).
Proof.
  destruct (select_main_without_windows no_windows eq_refl) as [Hc Hl].
  split.
  - apply Hc. right. left. reflexivity.
  - apply Hl. left. reflexivity.
Defined.

(** ** Selecting the newest window *)

Section LastIndex.

Lemma last_handle_snoc {A} (pre : list string) (l : string) (k : string -> M A) :
  (x <- last_handle (pre ++ [l]) ;; k x) = k l.
Proof.
  unfold last_handle. rewrite rev_unit. reflexivity.
Qed.

Lemma select_new_is_last_index (l : string) :
  lower l = "new" \/ lower l = "popup" ->
  select (LocStr l) = _select_by_last_index.
Proof.
  intros [H|H]; unfold select; rewrite H; reflexivity.
Qed.

Lemma last_index_empty (b : Browser) :
  br_handles b = [] ->
  _select_by_last_index b =
  (Raise (AssertionError "No window found"), log CallHandles b).
Proof.
  intros Hh. unfold _select_by_last_index, bind at 1, window_handles.
  rewrite Hh. reflexivity.
Qed.

Lemma last_index_unfocused (pre : list string) (l : string) (b : Browser) :
  br_handles b = (pre ++ [l])%list -> focused b = None ->
  _select_by_last_index b =
  (Raise (AssertionError
            "Currently no focus window. where are you making a popup window?"),
   log CallCurrent (log CallHandles b)).
Proof.
  intros Hh Hf. unfold _select_by_last_index, bind at 1, window_handles.
  rewrite Hh, last_handle_snoc.
  unfold bind, try_except, current_window_handle.
  rewrite focused_log, Hf. reflexivity.
Qed.

Lemma last_index_current (pre : list string) (l : string) (w : Window)
      (b : Browser) :
  br_handles b = (pre ++ [l])%list -> focused b = Some (l, w) ->
  _select_by_last_index b =
  (Raise (AssertionError no_new_window_message),
   log CallCurrent (log CallHandles b)).
Proof.
  intros Hh Hf. unfold _select_by_last_index, bind at 1, window_handles.
  rewrite Hh, last_handle_snoc.
  unfold bind, try_except, current_window_handle.
  rewrite focused_log, Hf, String.eqb_refl. reflexivity.
Qed.

Lemma last_index_new (pre : list string) (l cur : string) (w : Window)
      (b : Browser) :
  br_handles b = (pre ++ [l])%list -> focused b = Some (cur, w) ->
  cur <> l -> is_open b l ->
  _select_by_last_index b =
  (Ok tt, switched l (log CallCurrent (log CallHandles b))).
Proof.
  intros Hh Hf Hne Ho. unfold _select_by_last_index, bind at 1, window_handles.
  rewrite Hh, last_handle_snoc.
  unfold bind at 1, try_except, bind at 1, current_window_handle.
  rewrite focused_log, Hf.
  destruct (String.eqb_spec l cur) as [E|_]; [congruence|].
  unfold ret. rewrite last_handle_snoc.
  now apply switch_open.
Qed.

End LastIndex.

(** C3: selecting [new] or [popup] (in any case).  With an empty handle
    list it raises the "No window found" error; with a handle list and no
    focused window, the "no focus window" error; when the last handle is
    the focused one, the "No new window" error, the focus staying where it
    was; otherwise, the last handle being open, it switches to it and
    returns. *)
Theorem select_new_last_index (l : string) (b : Browser) :
  lower l = "new" \/ lower l = "popup" ->
  (br_handles b = [] ->
   select (LocStr l) b =
   (Raise (AssertionError "No window found"), log CallHandles b))
  /\
  (br_handles b <> [] -> focused b = None ->
   select (LocStr l) b =
   (Raise (AssertionError
             "Currently no focus window. where are you making a popup window?"),
    log CallCurrent (log CallHandles b)))
  /\
  (forall pre last w,
      br_handles b = (pre ++ [last])%list -> focused b = Some (last, w) ->
      select (LocStr l) b =
      (Raise (AssertionError no_new_window_message),
       log CallCurrent (log CallHandles b)) /\
      br_focus (snd (select (LocStr l) b)) = br_focus b)
  /\
  (forall pre last cur w,
      br_handles b = (pre ++ [last])%list -> focused b = Some (cur, w) ->
      cur <> last -> is_open b last ->
      select (LocStr l) b =
      (Ok tt, switched last (log CallCurrent (log CallHandles b))) /\
      br_focus (snd (select (LocStr l) b)) = Some last).
Proof.
  intros Hl. rewrite (select_new_is_last_index l Hl).
  split; [|split; [|split]].
  - apply last_index_empty.
  - intros Hne Hf.
    destruct (exists_last Hne) as (pre & last & Hh).
    now apply (last_index_unfocused pre last).
  - intros pre last w Hh Hf.
    rewrite (last_index_current pre last w b Hh Hf). split; reflexivity.
  - intros pre last cur w Hh Hf Hne Ho.
    rewrite (last_index_new pre last cur w b Hh Hf Hne Ho). split; reflexivity.
Qed.

Lemma select_new_last_index_witness :
  select (LocStr "New") no_windows =
  (Raise (AssertionError "No window found"), log CallHandles no_windows) /\
  (select (LocStr "popup") two_windows =
   (Ok tt, switched "B" (log CallCurrent (log CallHandles two_windows))) /\
   br_focus (snd (select (LocStr "popup") two_windows)) = Some "B").
Proof.
  split.
  - exact (proj1 (select_new_last_index "New" no_windows (or_introl eq_refl))
             eq_refl).
  - refine (proj2 (proj2 (proj2
             (select_new_last_index "popup" two_windows (or_intror eq_refl))))
             ["A"] "B" "A" home eq_refl eq_refl _ _).
    + discriminate.
    + exists login. reflexivity.
Defined.

(** ** Selecting by exclusion *)

Section Excludes.

Variable excludes : list string.

Lemma excluded_In (h : string) : excluded h excludes = true <-> In h excludes.
Proof.
  unfold excluded. rewrite existsb_exists. split.
  - intros (x & Hx & E). apply String.eqb_eq in E. now subst.
  - intros Hin. exists h. split; [exact Hin | apply String.eqb_refl].
Qed.

Lemma not_excluded_In (h : string) :
  excluded h excludes = false <-> ~ In h excludes.
Proof.
  rewrite <- excluded_In. now destruct (excluded h excludes).
Qed.

(** Over excluded handles only, the loop sends the driver nothing. *)
Lemma scan_excludes_all (hs : list string) (b : Browser) :
  Forall (fun h => In h excludes) hs ->
  scan_excludes excludes hs b = (Ok false, b).
Proof.
  induction 1 as [|h hs Hh _ IH]; [reflexivity|].
  cbn [scan_excludes]. apply excluded_In in Hh. now rewrite Hh.
Qed.

(** The loop switches to the first handle that is not excluded. *)
Lemma scan_excludes_first (pre post : list string) (h : string)
      (b : Browser) :
  Forall (fun x => In x excludes) pre -> ~ In h excludes -> is_open b h ->
  scan_excludes excludes (pre ++ h :: post) b = (Ok true, switched h b).
Proof.
  intros Hpre Hh Ho. induction Hpre as [|x pre Hx _ IH].
  - cbn [app scan_excludes]. apply not_excluded_In in Hh. rewrite Hh.
    cbn [negb]. unfold bind. now rewrite (switch_open h b Ho).
  - cbn [app scan_excludes]. apply excluded_In in Hx. now rewrite Hx.
Qed.

Lemma select_excludes_all (b : Browser) :
  Forall (fun h => In h excludes) (br_handles b) ->
  select (LocList excludes) b =
  (Raise (ValueError "Unable to locate new window"), log CallHandles b).
Proof.
  intros Hall. unfold select, _select_by_excludes, bind, window_handles.
  now rewrite scan_excludes_all.
Qed.

Lemma select_excludes_first (pre post : list string) (h : string)
      (b : Browser) :
  br_handles b = (pre ++ h :: post)%list ->
  Forall (fun x => In x excludes) pre -> ~ In h excludes -> is_open b h ->
  select (LocList excludes) b = (Ok tt, switched h (log CallHandles b)).
Proof.
  intros Hh Hpre Hn Ho.
  unfold select, _select_by_excludes, bind, window_handles.
  rewrite Hh, scan_excludes_first; auto.
Qed.

End Excludes.

(** C6: selecting by an exclusion list.  When some listed handle is not
    excluded, the first such handle in list order (its window being open)
    becomes the focused window and the call returns; when every listed
    handle is excluded, the call raises the "Unable to locate new window"
    error. *)
Theorem select_by_excludes_first_eligible
        (excludes : list string) (b : Browser) :
  (forall pre h post,
      br_handles b = (pre ++ h :: post)%list ->
      Forall (fun x => In x excludes) pre -> ~ In h excludes -> is_open b h ->
      fst (select (LocList excludes) b) = Ok tt /\
      br_focus (snd (select (LocList excludes) b)) = Some h)
  /\
  (Forall (fun h => In h excludes) (br_handles b) ->
   fst (select (LocList excludes) b) =
   Raise (ValueError "Unable to locate new window")).
Proof.
  split.
  - intros pre h post Hh Hpre Hn Ho.
    rewrite (select_excludes_first excludes pre post h b Hh Hpre Hn Ho).
    split; reflexivity.
  - intros Hall. now rewrite (select_excludes_all excludes b Hall).
Qed.

Lemma select_by_excludes_first_eligible_witness :
  (fst (select (LocList ["A"]) two_windows) = Ok tt /\
   br_focus (snd (select (LocList ["A"]) two_windows)) = Some "B") /\
  fst (select (LocList ["B"; "A"]) two_windows) =
  Raise (ValueError "Unable to locate new window").
Proof.
  split.
  - apply (proj1 (select_by_excludes_first_eligible ["A"] two_windows)
             ["A"] "B" []).
    + reflexivity.
    + repeat constructor.
    + simpl. intuition discriminate.
    + exists login. reflexivity.
  - apply (proj2 (select_by_excludes_first_eligible ["B"; "A"] two_windows)).
    apply Forall_cons; [right; left; reflexivity|].
    apply Forall_cons; [left; reflexivity|]. apply Forall_nil.
Defined.

(** C9: when every listed handle is excluded, the failing call has only
    read the handle list: no switch request was sent and the focused
    window is the one from before the call. *)
Theorem select_by_excludes_failure_keeps_focus
        (excludes : list string) (b : Browser) :
  Forall (fun h => In h excludes) (br_handles b) ->
  let r := select (LocList excludes) b in
  snd r = log CallHandles b /\
  br_focus (snd r) = br_focus b /\
  br_calls (snd r) = CallHandles :: br_calls b.
Proof.
  intros Hall r. subst r. rewrite (select_excludes_all excludes b Hall).
  repeat split.
Qed.

Lemma select_by_excludes_failure_keeps_focus_witness :
  let r := select (LocList ["B"; "A"]) two_windows in
  snd r = log CallHandles two_windows /\
  br_focus (snd r) = Some "A" /\
  br_calls (snd r) = [CallHandles].
Proof.
  apply (select_by_excludes_failure_keeps_focus ["B"; "A"] two_windows).
  apply Forall_cons; [right; left; reflexivity|].
  apply Forall_cons; [left; reflexivity|]. apply Forall_nil.
Defined.

(** ** Unknown prefixes *)

Section UnknownPrefix.

Lemma strategies_unknown (p : string) :
  ~ In p ["title"; "name"; "url"] ->
  dict_get (Some p) _strategies = None.
Proof.
  intros Hn. cbn [dict_get _strategies prefix_eqb].
  destruct (String.eqb_spec "title" p) as [<-|_]; [exfalso; simpl in Hn; tauto|].
  destruct (String.eqb_spec "name" p) as [<-|_]; [exfalso; simpl in Hn; tauto|].
  destruct (String.eqb_spec "url" p) as [<-|_]; [exfalso; simpl in Hn; tauto|].
  reflexivity.
Qed.

End UnknownPrefix.

(** C8: a locator [p=c] whose prefix, stripped and lowercased, is none of
    [title], [name], [url] makes [select] raise the unsupported-prefix
    error, which quotes that prefix; the session is exactly as before, so
    no request reached the driver. *)
Theorem select_unknown_prefix (p c : string) (b : Browser) :
  contains "=" p = false ->
  ~ In (lower (strip p)) ["title"; "name"; "url"] ->
  select (LocStr (p ++ "=" ++ c)) b =
  (Raise (ValueError ("Window locator with prefix '" ++ lower (strip p)
                        ++ "' is not supported")),
   b).
Proof.
  intros Hp Hn.
  rewrite select_with_equals.
  - unfold select_parsed. rewrite (parse_locator_split p c Hp).
    now rewrite (strategies_unknown _ Hn).
  - rewrite contains_app. cbn [append contains Ascii.eqb Bool.eqb].
    cbn. apply orb_true_r.
Qed.

Lemma select_unknown_prefix_witness :
  select (LocStr ("foo" ++ "=" ++ "bar")) two_windows =
  (Raise (ValueError "Window locator with prefix 'foo' is not supported"),
   two_windows).
Proof.
  apply (select_unknown_prefix "foo" "bar" two_windows).
  - reflexivity.
  - simpl. intuition discriminate.
Defined.

(** ** More on parsing and dispatch *)

Section MoreDispatch.

Lemma normal_prefix_no_equals (p k : string) :
  lower (strip p) = k -> contains "=" k = false -> contains "=" p = false.
Proof.
  intros <-. now rewrite lower_strip, contains_strip_lower.
Qed.

Lemma contains_with_equals (p c : string) :
  contains "=" (p ++ "=" ++ c) = true.
Proof.
  rewrite contains_app. change ("=" ++ c) with (String "=" c).
  cbn [contains]. change (Ascii.eqb "=" "=") with true. apply orb_true_r.
Qed.

Lemma select_name (p c : string) :
  lower (strip p) = "name" ->
  select (LocStr (p ++ "=" ++ c)) = _select_by_name (Some (name_criteria c)).
Proof.
  intros Hp. rewrite select_with_equals by apply contains_with_equals.
  unfold select_parsed.
  rewrite (parse_locator_split p c (normal_prefix_no_equals p _ Hp eq_refl)), Hp.
  reflexivity.
Qed.

Lemma select_url (p c : string) :
  lower (strip p) = "url" ->
  select (LocStr (p ++ "=" ++ c)) = _select_by_url (Some (strip c)).
Proof.
  intros Hp. rewrite select_with_equals by apply contains_with_equals.
  unfold select_parsed.
  rewrite (parse_locator_split p c (normal_prefix_no_equals p _ Hp eq_refl)), Hp.
  reflexivity.
Qed.

End MoreDispatch.

(** X1: [select] with [self] or [current], in any case, returns at once:
    the session, request log included, is the one before the call. *)
Theorem select_self_is_noop (l : string) (b : Browser) :
  lower l = "self" \/ lower l = "current" ->
  select (LocStr l) b = (Ok tt, b).
Proof.
  intros [H|H]; unfold select; rewrite H; reflexivity.
Qed.

Lemma select_self_is_noop_witness :
  select (LocStr "Current") middle_closed = (Ok tt, middle_closed).
Proof.
  exact (select_self_is_noop "Current" middle_closed (or_intror eq_refl)).
Defined.

Lemma parse_locator_criteria (locator : option string) :
  exists c, snd (_parse_locator locator) = Some c.
Proof.
  unfold _parse_locator. destruct locator as [l|]; [|now exists ""].
  destruct (0 <? String.length l)%nat;
    [destruct (partition "=" l) as [[p0 p1] p2];
     destruct (0 <? String.length p1)%nat|];
    cbn beta iota;
    repeat match goal with
           | |- context [String.eqb ?a ?b] => destruct (String.eqb a b)
           end;
    eexists; reflexivity.
Qed.

(** X2: whatever the locator, [None] included, the criteria
    [_parse_locator] returns is a string, never [None]. *)
Theorem parse_locator_criteria_is_string (locator : option string) :
  exists c, snd (_parse_locator locator) = Some c.
Proof. apply parse_locator_criteria. Qed.

(** X3: a locator without [=] has no prefix and is its own criteria,
    surrounding whitespace included; only [main], in any case, becomes the
    empty criteria. *)
Theorem parse_locator_without_equals (l : string) :
  contains "=" l = false ->
  _parse_locator (Some l) =
  (None, Some (if String.eqb (lower l) "main" then "" else l)).
Proof. apply parse_locator_bare. Qed.

Lemma parse_locator_without_equals_witness :
  _parse_locator (Some " Login ") = (None, Some " Login ").
Proof.
  exact (parse_locator_without_equals " Login " eq_refl).
Defined.

(** ** More on the matching scan *)

Section MoreScan.

Lemma last_or_snoc (hs : list string) (h : string) (d : option string) :
  last_or (hs ++ [h]) d = Some h.
Proof. unfold last_or. now rewrite rev_unit. Qed.

(** After a run of visits the focus is on the last handle visited. *)
Lemma fold_visited_focus (hs : list string) (b : Browser) :
  br_focus (fold_left visited hs b) = last_or hs (br_focus b).
Proof.
  induction hs as [|h hs _] using rev_ind; [reflexivity|].
  now rewrite fold_left_app, last_or_snoc.
Qed.

(** The loop stops with the driver's exception at the first closed
    handle. *)
Lemma scan_matching_closed (wins : list (string * Window)) (js : bool)
      (matcher : WindowInfo -> bool) (pre post : list string)
      (wpre : list Window) (h : string) :
  all_miss wins js matcher pre wpre ->
  find_window h wins = None ->
  forall b, br_windows b = wins -> br_javascript b = js ->
  scan_matching matcher (pre ++ h :: post) b =
  (Raise NoSuchWindowException, log (CallSwitch h) (fold_left visited pre b)).
Proof.
  induction 1 as [|x wx pre wpre [Hw Hm] _ IH]; intros Hh b Hb Hj.
  - cbn [app scan_matching fold_left]. unfold bind.
    rewrite <- Hb in Hh. now rewrite (switch_closed h b Hh).
  - cbn [app scan_matching fold_left].
    rewrite <- Hb in Hw. rewrite (visit_open x wx _ b Hw), Hj, Hm.
    now apply IH.
Qed.

Lemma select_matching_unknown (matcher : WindowInfo -> bool) (err : string)
      (ws : list Window) (b : Browser) :
  all_miss (br_windows b) (br_javascript b) matcher (br_handles b) ws ->
  focused b = None ->
  _select_matching matcher err b =
  (Raise (ValueError err),
   fold_left visited (br_handles b) (log CallHandles (log CallCurrent b))).
Proof.
  intros Hall Hf. unfold _select_matching.
  rewrite scan_prologue, Hf. cbn [option_map]. unfold bind.
  now rewrite (scan_matching_miss _ _ matcher _ ws Hall).
Qed.

Lemma name_matcher_miss (js : bool) (c : string) (ws : list Window) :
  Forall (fun w => key (name_of js w) <> lower c) ws ->
  Forall (fun w => forall h,
              String.eqb (lower (strip (wi_name (info_of js h w)))) (lower c)
              = false) ws.
Proof.
  apply Forall_impl. intros w Hne h.
  apply String.eqb_neq. exact Hne.
Qed.

Lemma url_matcher_miss (js : bool) (c : string) (ws : list Window) :
  Forall (fun w => key (url_of w) <> lower c) ws ->
  Forall (fun w => forall h,
              String.eqb (lower (strip (wi_url (info_of js h w)))) (lower c)
              = false) ws.
Proof.
  apply Forall_impl. intros w Hne h.
  apply String.eqb_neq. exact Hne.
Qed.

End MoreScan.

(** X4: selecting by name, under any spelling of the prefix.  The first
    listed window whose name (trimmed, lowercased) equals the lowercased
    criteria becomes focused, the windows before it being open; when no
    listed window has that name, the call raises the not-found error for
    names and a known starting window is focused again.  The criteria is
    the stripped text after the [=], or the empty string when that text is
    [main]. *)
Theorem select_by_name_first_match (p c : string) (b : Browser) :
  lower (strip p) = "name" ->
  (forall pre h post wpre w,
      br_handles b = (pre ++ h :: post)%list ->
      Forall2 (fun x wx => find_window x (br_windows b) = Some wx) pre wpre ->
      Forall (fun wx => key (name_of (br_javascript b) wx)
                        <> lower (name_criteria c)) wpre ->
      find_window h (br_windows b) = Some w ->
      key (name_of (br_javascript b) w) = lower (name_criteria c) ->
      fst (select (LocStr (p ++ "=" ++ c)) b) = Ok tt /\
      br_focus (snd (select (LocStr (p ++ "=" ++ c)) b)) = Some h)
  /\
  (forall ws s w0,
      listed_windows b ws ->
      Forall (fun wx => key (name_of (br_javascript b) wx)
                        <> lower (name_criteria c)) ws ->
      focused b = Some (s, w0) -> truthy s = true ->
      fst (select (LocStr (p ++ "=" ++ c)) b) =
      Raise (ValueError ("Unable to locate window with name '"
                           ++ name_criteria c ++ "'")) /\
      br_focus (snd (select (LocStr (p ++ "=" ++ c)) b)) = Some s).
Proof.
  intros Hp. rewrite (select_name p c Hp). unfold _select_by_name. split.
  - intros pre h post wpre w Hh Hpre Hmiss Hw Hhit.
    rewrite (select_matching_hit _ _ pre post wpre h w b Hh);
      [split; reflexivity| |exact Hw|].
    + apply all_miss_intro; [exact Hpre|]. now apply name_matcher_miss.
    + apply String.eqb_eq. exact Hhit.
  - intros ws s w0 Hl Hmiss Hf Ht.
    rewrite (select_matching_miss _ _ ws s w0 b); [split; reflexivity| |exact Hf|exact Ht].
    apply all_miss_intro; [exact Hl|]. now apply name_matcher_miss.
Qed.

Lemma select_by_name_first_match_witness :
  (fst (select (LocStr (" Name " ++ "=" ++ "POPUP1")) two_windows) = Ok tt /\
   br_focus (snd (select (LocStr (" Name " ++ "=" ++ "POPUP1")) two_windows))
   = Some "B") /\
  (fst (select (LocStr (" Name " ++ "=" ++ "main")) two_windows) =
   Raise (ValueError "Unable to locate window with name ''") /\
   br_focus (snd (select (LocStr (" Name " ++ "=" ++ "main")) two_windows))
   = Some "A").
Proof.
  split.
  - apply (proj1 (select_by_name_first_match " Name " "POPUP1" two_windows
                    eq_refl) ["A"] "B" [] [home] login).
    + reflexivity.
    + repeat constructor.
    + repeat constructor. discriminate.
    + reflexivity.
    + reflexivity.
  - apply (proj2 (select_by_name_first_match " Name " "main" two_windows
                    eq_refl) [home; login] "A" home).
    + repeat constructor.
    + repeat constructor; discriminate.
    + reflexivity.
    + reflexivity.
Defined.

(** X5: selecting by URL, under any spelling of the prefix.  The first
    listed window whose URL (trimmed, lowercased) equals the stripped,
    lowercased criteria becomes focused, the windows before it being open;
    when no listed window has that URL, the call raises the not-found
    error for URLs and a known starting window is focused again. *)
Theorem select_by_url_first_match (p c : string) (b : Browser) :
  lower (strip p) = "url" ->
  (forall pre h post wpre w,
      br_handles b = (pre ++ h :: post)%list ->
      Forall2 (fun x wx => find_window x (br_windows b) = Some wx) pre wpre ->
      Forall (fun wx => key (url_of wx) <> key c) wpre ->
      find_window h (br_windows b) = Some w ->
      key (url_of w) = key c ->
      fst (select (LocStr (p ++ "=" ++ c)) b) = Ok tt /\
      br_focus (snd (select (LocStr (p ++ "=" ++ c)) b)) = Some h)
  /\
  (forall ws s w0,
      listed_windows b ws ->
      Forall (fun wx => key (url_of wx) <> key c) ws ->
      focused b = Some (s, w0) -> truthy s = true ->
      fst (select (LocStr (p ++ "=" ++ c)) b) =
      Raise (ValueError ("Unable to locate window with URL '"
                           ++ strip c ++ "'")) /\
      br_focus (snd (select (LocStr (p ++ "=" ++ c)) b)) = Some s).
Proof.
  intros Hp. rewrite (select_url p c Hp). unfold _select_by_url. split.
  - intros pre h post wpre w Hh Hpre Hmiss Hw Hhit.
    rewrite (select_matching_hit _ _ pre post wpre h w b Hh);
      [split; reflexivity| |exact Hw|].
    + apply all_miss_intro; [exact Hpre|].
      now apply (url_matcher_miss (br_javascript b) (strip c)).
    + apply String.eqb_eq. exact Hhit.
  - intros ws s w0 Hl Hmiss Hf Ht.
    rewrite (select_matching_miss _ _ ws s w0 b); [split; reflexivity| |exact Hf|exact Ht].
    apply all_miss_intro; [exact Hl|].
    now apply (url_matcher_miss (br_javascript b) (strip c)).
Qed.

Lemma select_by_url_first_match_witness :
  (fst (select (LocStr ("URL" ++ "=" ++ " HTTP://site/login ")) two_windows)
   = Ok tt /\
   br_focus (snd (select (LocStr ("URL" ++ "=" ++ " HTTP://site/login "))
                         two_windows)) = Some "B") /\
  (fst (select (LocStr ("URL" ++ "=" ++ "about:blank")) two_windows) =
   Raise (ValueError "Unable to locate window with URL 'about:blank'") /\
   br_focus (snd (select (LocStr ("URL" ++ "=" ++ "about:blank")) two_windows))
   = Some "A").
Proof.
  split.
  - apply (proj1 (select_by_url_first_match "URL" " HTTP://site/login "
                    two_windows eq_refl) ["A"] "B" [] [home] login).
    + reflexivity.
    + repeat constructor.
    + repeat constructor. discriminate.
    + reflexivity.
    + reflexivity.
  - apply (proj2 (select_by_url_first_match "URL" "about:blank" two_windows
                    eq_refl) [home; login] "A" home).
    + repeat constructor.
    + repeat constructor; discriminate.
    + reflexivity.
    + reflexivity.
Defined.

(** X6: when no window is focused as the scan starts and no listed window
    is accepted, [_select_matching] raises its error without any
    restoring switch: every listed window has been visited in order and
    the focus stays on the last one. *)
Theorem select_matching_unknown_start
        (matcher : WindowInfo -> bool) (err : string)
        (ws : list Window) (b : Browser) :
  all_miss (br_windows b) (br_javascript b) matcher (br_handles b) ws ->
  focused b = None ->
  _select_matching matcher err b =
  (Raise (ValueError err),
   fold_left visited (br_handles b) (log CallHandles (log CallCurrent b))) /\
  br_focus (snd (_select_matching matcher err b)) =
  last_or (br_handles b) (br_focus b).
Proof.
  intros Hall Hf. rewrite (select_matching_unknown matcher err ws b Hall Hf).
  split; [reflexivity|]. cbn [snd]. now rewrite fold_visited_focus.
Qed.

Lemma select_matching_unknown_start_witness :
  br_focus (snd (_select_matching (fun _ => false) "none"
                   (mkBrowser ["A"; "B"] [("A", home); ("B", login)]
                              None true []))) = Some "B".
Proof.
  refine (proj2 (select_matching_unknown_start (fun _ => false) "none"
                   [home; login]
                   (mkBrowser ["A"; "B"] [("A", home); ("B", login)]
                              None true []) _ eq_refl)).
  repeat constructor.
Defined.

(** X7: when the scan of [_select_matching] reaches a handle whose window
    has closed, the windows before it being open and not accepted, the
    driver's [NoSuchWindowException] leaves the call at once: no later
    handle is switched to, nothing is restored, and the focus is on the
    last window visited (or untouched when the closed handle came
    first). *)
Theorem select_matching_closed_handle
        (matcher : WindowInfo -> bool) (err : string)
        (pre post : list string) (wpre : list Window) (h : string)
        (b : Browser) :
  br_handles b = (pre ++ h :: post)%list ->
  all_miss (br_windows b) (br_javascript b) matcher pre wpre ->
  find_window h (br_windows b) = None ->
  _select_matching matcher err b =
  (Raise NoSuchWindowException,
   log (CallSwitch h)
       (fold_left visited pre (log CallHandles (log CallCurrent b)))) /\
  br_focus (snd (_select_matching matcher err b)) = last_or pre (br_focus b).
Proof.
  intros Hh Hpre Hc.
  assert (E : _select_matching matcher err b =
              (Raise NoSuchWindowException,
               log (CallSwitch h)
                   (fold_left visited pre
                              (log CallHandles (log CallCurrent b))))).
  { unfold _select_matching. rewrite scan_prologue, Hh. unfold bind.
    now rewrite (scan_matching_closed _ _ matcher pre post wpre h Hpre Hc). }
  rewrite E. split; [reflexivity|]. cbn [snd log br_focus].
  now rewrite fold_visited_focus.
Qed.

Lemma select_matching_closed_handle_witness :
  br_focus (snd (_select_matching (fun _ => false) "none" middle_closed))
  = Some "A".
Proof.
  refine (proj2 (select_matching_closed_handle (fun _ => false) "none"
                   ["A"] ["C"] [home] "B" middle_closed eq_refl _ eq_refl)).
  repeat constructor.
Defined.

(** ** Snapshots *)

Section Snapshots.

Lemma info_unfocused (b : Browser) :
  focused b = None ->
  _get_current_window_info b =
  (Raise NoSuchWindowException, log CallCurrent (log CallScript b)).
Proof.
  intros Hf.
  unfold _get_current_window_info, bind, try_except, execute_script_id_name,
    current_window_handle, ret.
  destruct (br_javascript b);
    repeat first [ rewrite focused_log | rewrite Hf
                 | progress cbn [fst snd is_WebDriverException] ];
    reflexivity.
Qed.

(** A snapshot that was returned is the snapshot of the focused window. *)
Lemma info_inversion (b b' : Browser) (i : WindowInfo) :
  _get_current_window_info b = (Ok i, b') ->
  exists h w, focused b = Some (h, w) /\
              i = info_of (br_javascript b) h w /\ b' = inspected b.
Proof.
  destruct (focused b) as [[h w]|] eqn:Hf.
  - rewrite (info_focused h w b Hf). intros [= <- <-]. now exists h, w.
  - rewrite (info_unfocused b Hf). discriminate.
Qed.

Lemma truthy_or_undefined (s : string) : truthy (or_undefined s) = true.
Proof. destruct s; reflexivity. Qed.

Lemma collect_infos_handles (hs : list string) :
  forall b b' infos,
    collect_infos hs b = (Ok infos, b') -> map wi_handle infos = hs.
Proof.
  induction hs as [|h t IH]; intros b b' infos.
  - intros [= <- _]. reflexivity.
  - cbn [collect_infos].
    destruct (find_window h (br_windows b)) as [w|] eqn:Hw.
    + rewrite (visit_open h w _ b Hw). unfold bind.
      destruct (collect_infos t (visited b h)) as [[rest|e] b1] eqn:E;
        [|discriminate].
      intros [= <- _]. cbn [map info_of wi_handle].
      now rewrite (IH _ _ _ E).
    + unfold bind at 1. rewrite (switch_closed h b Hw). discriminate.
Qed.

End Snapshots.

(** X8: a snapshot that [_get_current_window_info] returns carries the
    handle of the focused window, and its name, title and URL are never
    empty strings (an empty one is replaced by [undefined]). *)
Theorem window_info_fields_not_empty (b b' : Browser) (i : WindowInfo) :
  _get_current_window_info b = (Ok i, b') ->
  br_focus b = Some (wi_handle i) /\
  truthy (wi_name i) = true /\
  truthy (wi_title i) = true /\
  truthy (wi_url i) = true.
Proof.
  intros H. destruct (info_inversion b b' i H) as (h & w & Hf & -> & _).
  split; [apply (focused_is_open h w b Hf)|].
  cbn [info_of wi_name wi_title wi_url].
  repeat split; try apply truthy_or_undefined.
  destruct (br_javascript b); [apply truthy_or_undefined | reflexivity].
Qed.

Lemma window_info_fields_not_empty_witness :
  br_focus two_windows = Some "A" /\
  truthy (wi_name (info_of true "A" home)) = true /\
  truthy (wi_title (info_of true "A" home)) = true /\
  truthy (wi_url (info_of true "A" home)) = true.
Proof.
  exact (window_info_fields_not_empty two_windows (inspected two_windows)
           (info_of true "A" home) eq_refl).
Defined.

(** X9: for the focused window [w] under handle [h],
    [_get_current_window_info] sends four requests (script, current
    handle, title, URL) and returns the handle [h], the title and the URL
    with [undefined] for an empty one, and: with Javascript, [window.id]
    as it is ([undefined] only when absent, an empty id is kept) and the
    name with [undefined] for an empty one; without Javascript,
    [undefined] for both, the driver's exception being absorbed. *)
Theorem window_info_of_focused (h : string) (w : Window) (b : Browser) :
  focused b = Some (h, w) ->
  exists i,
    _get_current_window_info b =
    (Ok i, log CallUrl (log CallTitle (log CallCurrent (log CallScript b)))) /\
    wi_handle i = h /\
    wi_id i = (if br_javascript b
               then match win_id w with Some x => x | None => "undefined" end
               else "undefined") /\
    wi_name i = (if br_javascript b
                 then (if truthy (win_name w) then win_name w else "undefined")
                 else "undefined") /\
    wi_title i = (if truthy (win_title w) then win_title w else "undefined") /\
    wi_url i = (if truthy (win_url w) then win_url w else "undefined").
Proof.
  intros Hf. exists (info_of (br_javascript b) h w).
  split; [exact (info_focused h w b Hf)|]. repeat split.
Qed.

Lemma window_info_of_focused_witness :
  exists i,
    _get_current_window_info two_windows =
    (Ok i, log CallUrl (log CallTitle (log CallCurrent
                                         (log CallScript two_windows)))) /\
    wi_handle i = "A" /\ wi_id i = "undefined" /\ wi_name i = "undefined" /\
    wi_title i = "Home" /\ wi_url i = "http://site/".
Proof.
  exact (window_info_of_focused "A" home two_windows eq_refl).
Defined.

(** X10: with no focused window, [_get_current_window_info] raises
    [NoSuchWindowException], with or without Javascript: the failure of
    the script is absorbed, the read of the current handle that follows is
    not. *)
Theorem window_info_without_focus (b : Browser) :
  focused b = None ->
  _get_current_window_info b =
  (Raise NoSuchWindowException, log CallCurrent (log CallScript b)).
Proof. apply info_unfocused. Qed.

Lemma window_info_without_focus_witness :
  _get_current_window_info no_windows =
  (Raise NoSuchWindowException, log CallCurrent (log CallScript no_windows)).
Proof.
  exact (window_info_without_focus no_windows eq_refl).
Defined.

(** X11: whenever [get_window_infos] returns, the handles of the
    snapshots are the driver's handle list, in its order: one snapshot per
    listed handle. *)
Theorem get_window_infos_handles (b : Browser) (infos : list WindowInfo) :
  fst (get_window_infos b) = Ok infos ->
  map wi_handle infos = br_handles b /\
  length infos = length (br_handles b).
Proof.
  intros H.
  assert (E : map wi_handle infos = br_handles b).
  { revert H. unfold get_window_infos, bind.
    rewrite read_starting_handle_run. unfold try_finally, bind, window_handles.
    change (br_handles (log CallCurrent b)) with (br_handles b).
    destruct (collect_infos (br_handles b) (log CallHandles (log CallCurrent b)))
      as [r b1] eqn:Ec.
    destruct (restore (option_map fst (focused b)) b1) as [[u|e] b2];
      cbn [fst]; [|discriminate].
    intros ->. now apply (collect_infos_handles _ _ _ _ Ec). }
  split; [exact E|]. now rewrite <- E, length_map.
Qed.

Lemma get_window_infos_handles_witness :
  map wi_handle [info_of true "A" home; info_of true "B" login]
  = br_handles two_windows /\
  length [info_of true "A" home; info_of true "B" login]
  = length (br_handles two_windows).
Proof.
  exact (get_window_infos_handles two_windows
           [info_of true "A" home; info_of true "B" login] eq_refl).
Defined.

(** ** The scan of the default strategy *)

Section DefaultScan.

Lemma default_match_false (js : bool) (c h : string) (w : Window) :
  default_match js c h w = false ->
  String.eqb c h = false /\
  existsb (fun item => String.eqb (lower (strip item)) (lower c))
          [wi_name (info_of js h w); wi_title (info_of js h w)] = false.
Proof.
  unfold default_match. intros H.
  apply orb_false_iff in H as [H Ht]. apply orb_false_iff in H as [Hh Hn].
  split; [exact Hh|]. cbn [existsb info_of wi_name wi_title].
  fold (name_of js w). fold (title_of w). fold (key (name_of js w)).
  fold (key (title_of w)). now rewrite Hn, Ht.
Qed.

Lemma scan_default_miss (wins : list (string * Window)) (js : bool)
      (c : string) (hs : list string) (ws : list Window) :
  all_default_miss wins js c hs ws ->
  forall b, br_windows b = wins -> br_javascript b = js ->
  scan_default c hs b = (Ok false, fold_left visited hs b).
Proof.
  induction 1 as [|h w hs ws [Hw Hm] _ IH]; intros b Hb Hj; [reflexivity|].
  cbn [scan_default fold_left].
  destruct (default_match_false js c h w Hm) as [Hh Hi].
  rewrite Hh. rewrite <- Hb in Hw. rewrite (visit_open h w _ b Hw), Hj, Hi.
  now apply IH.
Qed.

(** The loop stops at the first accepted window; a window accepted by its
    handle is not inspected. *)
Lemma scan_default_hit (wins : list (string * Window)) (js : bool)
      (c : string) (pre post : list string) (wpre : list Window)
      (h : string) (w : Window) :
  all_default_miss wins js c pre wpre ->
  find_window h wins = Some w ->
  default_match js c h w = true ->
  forall b, br_windows b = wins -> br_javascript b = js ->
  scan_default c (pre ++ h :: post) b =
  (Ok true,
   if String.eqb c h then switched h (fold_left visited pre b)
   else visited (fold_left visited pre b) h).
Proof.
  induction 1 as [|x wx pre wpre [Hw Hm] _ IH]; intros Hh Hhit b Hb Hj.
  - cbn [app scan_default fold_left]. rewrite <- Hb in Hh.
    destruct (String.eqb c h) eqn:E.
    + unfold bind. now rewrite (switch_open h b (ex_intro _ w Hh)).
    + rewrite (visit_open h w _ b Hh), Hj.
      unfold default_match in Hhit. rewrite E in Hhit.
      cbn [existsb info_of wi_name wi_title orb] in *.
      fold (name_of js w). fold (title_of w). fold (key (name_of js w)).
      fold (key (title_of w)).
      destruct (String.eqb (key (name_of js w)) (lower c)); [reflexivity|].
      cbn [orb] in *. now rewrite Hhit.
  - cbn [app scan_default fold_left].
    destruct (default_match_false js c x wx Hm) as [Hx Hi].
    rewrite Hx. rewrite <- Hb in Hw. rewrite (visit_open x wx _ b Hw), Hj, Hi.
    now apply IH.
Qed.

Lemma select_plain (l : string) :
  plain_locator l -> select (LocStr l) = _select_by_default (Some l).
Proof.
  intros (He & _ & Hn). unfold select, select_parsed.
  rewrite (parse_locator_bare l He).
  destruct (String.eqb_spec (lower l) "self") as [E|_];
    [exfalso; apply Hn; rewrite E; simpl; tauto|].
  destruct (String.eqb_spec (lower l) "current") as [E|_];
    [exfalso; apply Hn; rewrite E; simpl; tauto|].
  destruct (String.eqb_spec (lower l) "new") as [E|_];
    [exfalso; apply Hn; rewrite E; simpl; tauto|].
  destruct (String.eqb_spec (lower l) "popup") as [E|_];
    [exfalso; apply Hn; rewrite E; simpl; tauto|].
  destruct (String.eqb_spec (lower l) "main") as [E|_];
    [exfalso; apply Hn; rewrite E; simpl; tauto|].
  reflexivity.
Qed.

Lemma plain_not_main (l : string) :
  plain_locator l ->
  (String.length l =? 0)%nat || String.eqb (lower l) "null" = false.
Proof.
  intros (_ & Hne & Hn). apply orb_false_iff. split.
  - destruct l; [now contradiction Hne | reflexivity].
  - destruct (String.eqb_spec (lower l) "null") as [E|_]; [|reflexivity].
    exfalso; apply Hn; rewrite E; simpl; tauto.
Qed.

Lemma default_focus_after_hit (c h : string) (pre : list string)
      (b : Browser) :
  br_focus (if String.eqb c h then switched h (fold_left visited pre b)
            else visited (fold_left visited pre b) h) = Some h.
Proof. destruct (String.eqb c h); reflexivity. Qed.

End DefaultScan.

(** X12: a locator without prefix that is no reserved word selects the
    first listed window that is accepted, by handle identity or by name or
    title (trimmed, case-insensitive), the windows before it being open
    and not accepted; a window accepted by its handle is switched to and
    not inspected. *)
Theorem select_default_first_match
        (c : string) (pre post : list string) (wpre : list Window)
        (h : string) (w : Window) (b : Browser) :
  plain_locator c ->
  br_handles b = (pre ++ h :: post)%list ->
  all_default_miss (br_windows b) (br_javascript b) c pre wpre ->
  find_window h (br_windows b) = Some w ->
  default_match (br_javascript b) c h w = true ->
  fst (select (LocStr c) b) = Ok tt /\
  br_focus (snd (select (LocStr c) b)) = Some h /\
  (c = h ->
   snd (select (LocStr c) b) =
   switched h (fold_left visited pre (log CallHandles (log CallCurrent b)))).
Proof.
  intros Hp Hh Hpre Hw Hhit.
  assert (E : select (LocStr c) b =
              (Ok tt,
               if String.eqb c h
               then switched h (fold_left visited pre
                                  (log CallHandles (log CallCurrent b)))
               else visited (fold_left visited pre
                               (log CallHandles (log CallCurrent b))) h)).
  { rewrite (select_plain c Hp). unfold _select_by_default.
    rewrite (plain_not_main c Hp), scan_prologue, Hh. unfold bind.
    now rewrite (scan_default_hit _ _ c pre post wpre h w Hpre Hw Hhit). }
  rewrite E. split; [reflexivity|]. split.
  - apply default_focus_after_hit.
  - intros ->. cbn [snd]. now rewrite String.eqb_refl.
Qed.

Lemma select_default_first_match_witness :
  fst (select (LocStr "LOGIN") two_windows) = Ok tt /\
  br_focus (snd (select (LocStr "LOGIN") two_windows)) = Some "B" /\
  ("LOGIN" = "B" ->
   snd (select (LocStr "LOGIN") two_windows) =
   switched "B" (fold_left visited ["A"]
                   (log CallHandles (log CallCurrent two_windows)))).
Proof.
  apply (select_default_first_match "LOGIN" ["A"] [] [home] "B" login
           two_windows).
  - split; [reflexivity|]. split; [discriminate|].
    simpl. intuition discriminate.
  - reflexivity.
  - repeat constructor.
  - reflexivity.
  - reflexivity.
Defined.

Lemma default_not_found_run
      (c : string) (ws : list Window) (s : string) (w0 : Window)
      (b : Browser) :
  plain_locator c ->
  all_default_miss (br_windows b) (br_javascript b) c (br_handles b) ws ->
  focused b = Some (s, w0) -> truthy s = true ->
  select (LocStr c) b =
  (Raise (ValueError
            ("Unable to locate window with handle or name or title or URL '"
               ++ c ++ "'")),
   switched s (fold_left visited (br_handles b)
                         (log CallHandles (log CallCurrent b)))).
Proof.
  intros Hp Hall Hf Ht.
  rewrite (select_plain c Hp). unfold _select_by_default.
  rewrite (plain_not_main c Hp), scan_prologue, Hf. cbn [option_map fst].
  unfold bind.
  rewrite (scan_default_miss _ _ c _ ws Hall) by reflexivity.
  rewrite restore_open; [reflexivity | exact Ht |].
  apply (is_open_same_session (log CallHandles (log CallCurrent b))).
  - apply fold_visited_same_session.
  - apply (focused_is_open s w0 b Hf).
Qed.

(** X13: when no listed window is accepted by handle, name or title, such
    a locator raises the error that lists handle, name, title and URL, and
    a known starting window is focused again.  The URL is named in the
    message but not compared: a window whose URL is the criteria is not
    accepted for it. *)
Theorem select_default_not_found
        (c : string) (ws : list Window) (s : string) (w0 : Window)
        (b : Browser) :
  plain_locator c ->
  all_default_miss (br_windows b) (br_javascript b) c (br_handles b) ws ->
  focused b = Some (s, w0) -> truthy s = true ->
  select (LocStr c) b =
  (Raise (ValueError
            ("Unable to locate window with handle or name or title or URL '"
               ++ c ++ "'")),
   switched s (fold_left visited (br_handles b)
                         (log CallHandles (log CallCurrent b)))) /\
  br_focus (snd (select (LocStr c) b)) = Some s.
Proof.
  intros Hp Hall Hf Ht.
  rewrite (default_not_found_run c ws s w0 b Hp Hall Hf Ht).
  split; reflexivity.
Qed.

Lemma select_default_not_found_witness :
  fst (select (LocStr "http://site/login") two_windows) =
  Raise (ValueError
           "Unable to locate window with handle or name or title or URL 'http://site/login'")
  /\
  br_focus (snd (select (LocStr "http://site/login") two_windows)) = Some "A".
Proof.
  destruct (select_default_not_found "http://site/login" [home; login] "A" home
              two_windows) as [E F].
  - split; [reflexivity|]. split; [discriminate|].
    simpl. intuition discriminate.
  - repeat constructor.
  - reflexivity.
  - reflexivity.
  - split; [now rewrite E | exact F].
Defined.

(** ** Handles whose window has closed *)

(** X14: selecting [new] or [popup] when the last listed handle differs
    from the focused one but its window has closed: the final switch is
    outside the [try], so the driver's [NoSuchWindowException] leaves the
    call as it is, not as an [AssertionError], and the focus stays where it
    was. *)
Theorem select_new_closed_last
        (l : string) (pre : list string) (last cur : string) (w : Window)
        (b : Browser) :
  lower l = "new" \/ lower l = "popup" ->
  br_handles b = (pre ++ [last])%list ->
  focused b = Some (cur, w) -> cur <> last ->
  find_window last (br_windows b) = None ->
  select (LocStr l) b =
  (Raise NoSuchWindowException,
   log (CallSwitch last) (log CallCurrent (log CallHandles b))) /\
  br_focus (snd (select (LocStr l) b)) = br_focus b.
Proof.
  intros Hl Hh Hf Hne Hc.
  assert (E : select (LocStr l) b =
              (Raise NoSuchWindowException,
               log (CallSwitch last) (log CallCurrent (log CallHandles b)))).
  { rewrite (select_new_is_last_index l Hl).
    unfold _select_by_last_index, bind at 1, window_handles.
    rewrite Hh, last_handle_snoc.
    unfold bind at 1, try_except, bind at 1, current_window_handle.
    rewrite focused_log, Hf.
    destruct (String.eqb_spec last cur) as [E|_]; [congruence|].
    unfold ret. rewrite last_handle_snoc.
    now apply switch_closed. }
  rewrite E. split; reflexivity.
Qed.

Lemma select_new_closed_last_witness :
  select (LocStr "new")
         (mkBrowser ["A"; "B"] [("A", home)] (Some "A") true []) =
  (Raise NoSuchWindowException,
   log (CallSwitch "B")
       (log CallCurrent
            (log CallHandles
                 (mkBrowser ["A"; "B"] [("A", home)] (Some "A") true [])))) /\
  br_focus (snd (select (LocStr "new")
                   (mkBrowser ["A"; "B"] [("A", home)] (Some "A") true [])))
  = Some "A".
Proof.
  apply (select_new_closed_last "new" ["A"] "B" "A" home
           (mkBrowser ["A"; "B"] [("A", home)] (Some "A") true [])).
  - left. reflexivity.
  - reflexivity.
  - reflexivity.
  - discriminate.
  - reflexivity.
Defined.

(** X15: selecting by an exclusion list when the window of the first
    handle that is not excluded has closed: the driver's exception leaves
    the call, the handles after it are not tried, and the focus stays
    where it was. *)
Theorem select_by_excludes_closed_window
        (excludes pre post : list string) (h : string) (b : Browser) :
  br_handles b = (pre ++ h :: post)%list ->
  Forall (fun x => In x excludes) pre -> ~ In h excludes ->
  find_window h (br_windows b) = None ->
  select (LocList excludes) b =
  (Raise NoSuchWindowException, log (CallSwitch h) (log CallHandles b)).
Proof.
  intros Hh Hpre Hn Hc.
  unfold select, _select_by_excludes, bind at 1, window_handles. rewrite Hh.
  assert (E : forall b0, find_window h (br_windows b0) = None ->
                scan_excludes excludes (pre ++ h :: post) b0 =
                (Raise NoSuchWindowException, log (CallSwitch h) b0)).
  { clear Hh. intros b0 Hb0. induction Hpre as [|x pre Hx _ IH].
    - cbn [app scan_excludes]. apply not_excluded_In in Hn. rewrite Hn.
      cbn [negb]. unfold bind. now rewrite (switch_closed h b0 Hb0).
    - cbn [app scan_excludes]. apply excluded_In in Hx. rewrite Hx.
      exact IH. }
  unfold bind. now rewrite (E (log CallHandles b) Hc).
Qed.

Lemma select_by_excludes_closed_window_witness :
  select (LocList ["A"]) middle_closed =
  (Raise NoSuchWindowException,
   log (CallSwitch "B") (log CallHandles middle_closed)).
Proof.
  apply (select_by_excludes_closed_window ["A"] ["A"] ["C"] "B" middle_closed).
  - reflexivity.
  - apply Forall_cons; [left; reflexivity | apply Forall_nil].
  - simpl. intuition discriminate.
  - reflexivity.
Defined.

(** X16: [get_window_infos] called while no window is focused, every
    listed window being open: it returns the snapshots, restores nothing,
    and the focus ends on the last listed window. *)
Theorem get_window_infos_without_focus (b : Browser) (ws : list Window) :
  focused b = None -> listed_windows b ws ->
  get_window_infos b =
  (Ok (map (fun hw => info_of (br_javascript b) (fst hw) (snd hw))
           (combine (br_handles b) ws)),
   fold_left visited (br_handles b) (log CallHandles (log CallCurrent b))) /\
  br_focus (snd (get_window_infos b)) = last_or (br_handles b) (br_focus b).
Proof.
  intros Hf Hl.
  assert (E : get_window_infos b =
              (Ok (map (fun hw => info_of (br_javascript b) (fst hw) (snd hw))
                       (combine (br_handles b) ws)),
               fold_left visited (br_handles b)
                         (log CallHandles (log CallCurrent b)))).
  { unfold get_window_infos, bind. rewrite read_starting_handle_run, Hf.
    cbn [option_map]. unfold try_finally, bind, window_handles.
    now rewrite (collect_infos_open (br_windows b) (br_javascript b) _ ws Hl). }
  rewrite E. split; [reflexivity|]. cbn [snd]. now rewrite fold_visited_focus.
Qed.

Lemma get_window_infos_without_focus_witness :
  br_focus (snd (get_window_infos
                   (mkBrowser ["A"; "B"] [("A", home); ("B", login)]
                              None true []))) = Some "B".
Proof.
  refine (proj2 (get_window_infos_without_focus
                   (mkBrowser ["A"; "B"] [("A", home); ("B", login)]
                              None true [])
                   [home; login] eq_refl _)).
  repeat constructor.
Defined.

(** ** Whitespace around a locator *)

Section Whitespace.

Lemma head_space_lower (s : string) : head_space (lower s) = head_space s.
Proof. destruct s; [reflexivity | apply is_space_lower_char]. Qed.

Lemma tail_space_lower (s : string) : tail_space (lower s) = tail_space s.
Proof.
  induction s as [|a t IH]; [reflexivity|].
  destruct t as [|d r]; [apply is_space_lower_char | exact IH].
Qed.

Lemma head_space_lstrip (s : string) : head_space (lstrip s) = false.
Proof.
  induction s as [|a t IH]; [reflexivity|]. cbn [lstrip].
  destruct (is_space a) eqn:E; [exact IH | exact E].
Qed.

Lemma head_space_rstrip (s : string) :
  head_space s = false -> head_space (rstrip s) = false.
Proof.
  destruct s as [|a t]; [reflexivity|]. cbn [head_space rstrip]. intros Ha.
  destruct (rstrip t); [rewrite Ha|]; exact Ha.
Qed.

Lemma tail_space_rstrip (s : string) : tail_space (rstrip s) = false.
Proof.
  induction s as [|a t IH]; [reflexivity|]. cbn [rstrip].
  destruct (rstrip t) as [|d r]; [|exact IH].
  destruct (is_space a) eqn:E; [reflexivity | exact E].
Qed.

Lemma lstrip_fixed (s : string) : head_space s = false -> lstrip s = s.
Proof. destruct s as [|a t]; [reflexivity|]. cbn. now intros ->. Qed.

Lemma rstrip_fixed (s : string) : tail_space s = false -> rstrip s = s.
Proof.
  induction s as [|a t IH]; [reflexivity|].
  destruct t as [|d r].
  - cbn. now intros ->.
  - intros H. specialize (IH H).
    change (rstrip (String a (String d r)))
      with (match rstrip (String d r) with
            | EmptyString =>
                if is_space a then EmptyString else String a EmptyString
            | String x y => String a (String x y)
            end).
    now rewrite IH.
Qed.

Lemma head_space_strip (s : string) : head_space (strip s) = false.
Proof. apply head_space_rstrip, head_space_lstrip. Qed.

Lemma tail_space_strip (s : string) : tail_space (strip s) = false.
Proof. apply tail_space_rstrip. Qed.

(** Stripping twice strips once. *)
Lemma strip_idempotent (s : string) : strip (strip s) = strip s.
Proof.
  unfold strip at 1.
  rewrite (lstrip_fixed _ (head_space_strip s)).
  apply rstrip_fixed, tail_space_strip.
Qed.

Lemma lower_char_idempotent (c : ascii) :
  lower_char (lower_char c) = lower_char c.
Proof. destruct c as [[] [] [] [] [] [] [] []]; reflexivity. Qed.

Lemma lower_idempotent (s : string) : lower (lower s) = lower s.
Proof.
  induction s as [|a t IH]; [reflexivity|]. cbn [lower].
  now rewrite lower_char_idempotent, IH.
Qed.

(** A criteria that starts or ends with whitespace equals no comparison
    key. *)
Lemma padded_never_key (c x : string) :
  head_space c || tail_space c = true -> String.eqb (key x) (lower c) = false.
Proof.
  intros Hp. apply String.eqb_neq. intros E.
  assert (Hh : head_space (lower c) = false).
  { rewrite <- E. unfold key. rewrite lower_strip. apply head_space_strip. }
  assert (Ht : tail_space (lower c) = false).
  { rewrite <- E. unfold key. rewrite lower_strip. apply tail_space_strip. }
  rewrite head_space_lower in Hh. rewrite tail_space_lower in Ht.
  rewrite Hh, Ht in Hp. discriminate.
Qed.

Lemma padded_default_miss (js : bool) (c : string)
      (hs : list string) (ws : list Window) (wins : list (string * Window)) :
  head_space c || tail_space c = true ->
  ~ In c hs ->
  Forall2 (fun h w => find_window h wins = Some w) hs ws ->
  all_default_miss wins js c hs ws.
Proof.
  intros Hp Hn HF. unfold all_default_miss.
  induction HF as [|h w hs ws Hw _ IH]; constructor.
  - split; [exact Hw|]. unfold default_match.
    rewrite !(padded_never_key c _ Hp), !orb_false_r.
    apply String.eqb_neq. intros ->. apply Hn. now left.
  - apply IH. intros Hin. apply Hn. now right.
Qed.

End Whitespace.

(** X19: a locator without prefix is compared as it is, while names and
    titles are compared trimmed: when it starts or ends with whitespace it
    equals no name or title, so unless it is itself a listed handle the
    call raises the not-found error and a known starting window is focused
    again, whatever the names and titles of the open windows. *)
Theorem select_default_padded_not_found
        (c : string) (ws : list Window) (s : string) (w0 : Window)
        (b : Browser) :
  plain_locator c ->
  head_space c || tail_space c = true ->
  listed_windows b ws -> ~ In c (br_handles b) ->
  focused b = Some (s, w0) -> truthy s = true ->
  fst (select (LocStr c) b) =
  Raise (ValueError
           ("Unable to locate window with handle or name or title or URL '"
              ++ c ++ "'")) /\
  br_focus (snd (select (LocStr c) b)) = Some s.
Proof.
  intros Hp Hpad Hl Hn Hf Ht.
  rewrite (default_not_found_run c ws s w0 b Hp
             (padded_default_miss _ c _ ws _ Hpad Hn Hl) Hf Ht).
  split; reflexivity.
Qed.

Lemma select_default_padded_not_found_witness :
  fst (select (LocStr "Login ") two_windows) =
  Raise (ValueError
           "Unable to locate window with handle or name or title or URL 'Login '")
  /\
  br_focus (snd (select (LocStr "Login ") two_windows)) = Some "A".
Proof.
  apply (select_default_padded_not_found "Login " [home; login] "A" home
           two_windows).
  - split; [reflexivity|]. split; [discriminate|].
    simpl. intuition discriminate.
  - reflexivity.
  - repeat constructor.
  - simpl. intuition discriminate.
  - reflexivity.
  - reflexivity.
Defined.

(** X20: a locator [p=c] and its normal form, the prefix stripped and
    lowercased and the criteria stripped, parse to the same pair and
    select the same way: neither the case of the prefix nor whitespace
    around the prefix or the criteria matters. *)
Theorem locator_normal_form (p c : string) :
  contains "=" p = false ->
  _parse_locator (Some (lower (strip p) ++ "=" ++ strip c)) =
  _parse_locator (Some (p ++ "=" ++ c)) /\
  (forall b,
      select (LocStr (lower (strip p) ++ "=" ++ strip c)) b =
      select (LocStr (p ++ "=" ++ c)) b).
Proof.
  intros Hp.
  assert (Hk : contains "=" (lower (strip p)) = false).
  { now rewrite lower_strip, contains_strip_lower. }
  assert (E : _parse_locator (Some (lower (strip p) ++ "=" ++ strip c)) =
              _parse_locator (Some (p ++ "=" ++ c))).
  { rewrite (parse_locator_split _ (strip c) Hk), (parse_locator_split p c Hp).
    rewrite strip_idempotent.
    replace (lower (strip (lower (strip p)))) with (lower (strip p));
      [reflexivity|].
    now rewrite <- (lower_strip (strip p)), strip_idempotent, lower_idempotent. }
  split; [exact E|]. intros b.
  rewrite !select_with_equals by apply contains_with_equals.
  unfold select_parsed. now rewrite E.
Qed.

Lemma locator_normal_form_witness :
  _parse_locator (Some (lower (strip " Title ") ++ "=" ++ strip " Log In ")) =
  _parse_locator (Some (" Title " ++ "=" ++ " Log In ")) /\
  (forall b,
      select (LocStr (lower (strip " Title ") ++ "=" ++ strip " Log In ")) b =
      select (LocStr (" Title " ++ "=" ++ " Log In ")) b).
Proof.
  exact (locator_normal_form " Title " " Log In " eq_refl).
Defined.
